(** * Retrieval pipeline of the RAG knowledge base (TASK 3, main.py)

    A shallow embedding of the chunker, the index build, the index load and
    the query assembly, together with the properties the specification
    states about them.

    Conventions of the embedding.
    - A Python [str] is a list of Unicode code points ([N]).
    - A Python [int] is a [Z]; list positions that the source computes with
      ints are kept in [Z] and slicing follows Python's rules for negative
      and out-of-range bounds.
    - The [while] loop of the chunker takes fuel: [None] means the loop is
      still running when the fuel is spent.
    - An operation that may raise returns an [outcome].
    - The files the program reads and writes are an explicit store that the
      operations pass along; reading a document and writing an artifact
      succeed.
    - The embedding model, the index engine, the two serialisers and the
      language detector are the fields of a class.  Loading the model,
      searching the index, reading an artifact and detecting the language
      may raise; encoding and normalising are total.
    - The directory of the program file holds none of the characters that
      [glob] reads as a pattern, so that the pattern of [load_text_files]
      names the documents directory itself. *)

From Stdlib Require Import String Ascii.
From Stdlib Require Import List ZArith NArith Lia Bool Sorted.
From Stdlib Require Import Permutation DecimalString.
Import ListNotations.

Local Open Scope Z_scope.

(* ------------------------------------------------------------------ *)
(** ** Python strings *)

Module PyStr.

Definition char := N.
Definition str := list char.

(** A literal of the source, written as a Rocq string. *)
Fixpoint of_string (s : string) : str :=
  match s with
  | EmptyString => []
  | String a s' => N_of_ascii a :: of_string s'
  end.

(** [str.isspace] on one code point: the code points CPython's
    [_PyUnicode_IsWhitespace] accepts. *)
Definition isspace (c : char) : bool :=
  ((9 <=? c) && (c <=? 13) || (28 <=? c) && (c <=? 32)
   || (c =? 133) || (c =? 160) || (c =? 5760)
   || (8192 <=? c) && (c <=? 8202)
   || (c =? 8232) || (c =? 8233) || (c =? 8239) || (c =? 8287)
   || (c =? 12288))%N.

Definition nonspace (c : char) : bool := negb (isspace c).

(** [text.split()] with no separator: the maximal runs of characters that
    are not whitespace.  [cur] is the run being scanned. *)
Fixpoint split_from (cur : str) (s : str) : list str :=
  match s with
  | [] => match cur with [] => [] | _ :: _ => [cur] end
  | c :: s' =>
      if isspace c
      then match cur with
           | [] => split_from [] s'
           | _ :: _ => cur :: split_from [] s'
           end
      else split_from (cur ++ [c]) s'
  end.

Definition split (s : str) : list str := split_from [] s.

(** [sep.join(parts)]. *)
Fixpoint join (sep : str) (parts : list str) : str :=
  match parts with
  | [] => []
  | [p] => p
  | p :: ps => p ++ sep ++ join sep ps
  end.

Definition space : str := [32%N].

End PyStr.
Import PyStr.

(* ------------------------------------------------------------------ *)
(** ** Python list slicing *)

(** A slice bound as [PySlice_AdjustIndices] clamps it for a sequence of
    length [len] (step 1). *)
Definition adjust_index (len i : Z) : Z :=
  if i <? 0 then Z.max (i + len) 0 else Z.min i len.

(** [l[lo:hi]]. *)
Definition slice {A : Type} (l : list A) (lo hi : Z) : list A :=
  let len := Z.of_nat (length l) in
  let lo' := adjust_index len lo in
  let hi' := adjust_index len hi in
  firstn (Z.to_nat (hi' - lo')) (skipn (Z.to_nat lo') l).

(* ------------------------------------------------------------------ *)
(** ** The chunker *)

(** The loop of [chunk_text]:
    [while i < len(tokens): chunks.append(" ".join(tokens[i:i+chunk_size]));
     i += chunk_size - overlap].  One unit of fuel is one test of the loop
    condition. *)
Fixpoint chunk_loop (fuel : nat) (tokens : list str) (chunk_size overlap : Z)
  (i : Z) (chunks : list str) : option (list str) :=
  match fuel with
  | O => None
  | S fuel' =>
      if i <? Z.of_nat (length tokens)
      then
        let chunk := slice tokens i (i + chunk_size) in
        chunk_loop fuel' tokens chunk_size overlap
          (i + (chunk_size - overlap)) (chunks ++ [join space chunk])
      else Some chunks
  end.

Definition chunk_text (fuel : nat) (text : str) (chunk_size overlap : Z)
  : option (list str) :=
  let tokens := split text in
  chunk_loop fuel tokens chunk_size overlap 0 [].

(* ------------------------------------------------------------------ *)
(** ** Outcomes of operations that may raise *)

Inductive exn : Type :=
| FileNotFoundError (msg : str)
| ValueError (msg : str)
| IndexError (msg : str)
| OSError (msg : str)
| AssertionError (msg : str).

Inductive outcome (A : Type) : Type :=
| Returned (a : A)
| Raised (e : exn).
Arguments Returned {A} a.
Arguments Raised {A} e.

Definition bind {A B : Type} (c : outcome A) (k : A -> outcome B) : outcome B :=
  match c with
  | Returned a => k a
  | Raised e => Raised e
  end.

Notation "x <- c ;; k" := (bind c (fun x => k))
  (at level 61, c at next level, right associativity).
Notation "' pat <- c ;; k" := (bind c (fun x => let 'pat := x in k))
  (at level 61, pat pattern, c at next level, right associativity).

(* ------------------------------------------------------------------ *)
(** ** Data model *)

(** An entry of the documents directory: a regular file, its content
    already decoded as UTF-8. *)
Record file : Type := { fname : str; fcontent : str }.

(** [{"path": path, "text": text}] of [load_text_files]. *)
Record document : Type := { path : str; text : str }.

(** [{"source": ..., "chunk_idx": ..., "text": ...}] of [build_index]. *)
Record chunk_meta : Type := { source : str; chunk_idx : nat; ctext : str }.

(** [{"vectors": ..., "dim": ...}] returned by [build_index]. *)
Record build_info : Type := { vectors : nat; dim : nat }.

(** The flat inner-product index of the engine: its dimension and the rows
    added so far, in insertion order. *)
Record faiss_index (F : Type) : Type := { d : nat; xb : list (list F) }.
Arguments d {F} _.
Arguments xb {F} _.

Definition ntotal {F : Type} (ix : faiss_index F) : nat := length (xb ix).

(** [faiss.IndexFlatIP(dim)]. *)
Definition IndexFlatIP {F : Type} (dim : nat) : faiss_index F :=
  {| d := dim; xb := [] |}.

(** [index.add(rows)]. *)
Definition index_add {F : Type} (ix : faiss_index F) (rows : list (list F))
  : faiss_index F :=
  {| d := d ix; xb := xb ix ++ rows |}.

(** [glob.has_magic]: whether a path holds a character that [glob] reads
    as part of a pattern ([*], [?] or an opening bracket). *)
Definition has_magic (p : str) : bool :=
  existsb (fun c => N.eqb c 42 || N.eqb c 63 || N.eqb c 91)%N p.

(** The external capabilities the pipeline consumes: the embedding provider,
    the vector operations of the index engine, the two serialisers and the
    language detector.  [search] is [index.search], which raises where the
    engine refuses the request (it asserts [k > 0] and a query of the
    dimension of the index).  [BASE_DIR] is the directory of the program
    file, a path without pattern characters. *)
Class Capabilities : Type := {
  float32 : Type;
  model : Type;
  SentenceTransformer : str -> outcome model;
  encode : model -> str -> list float32;
  normalize_L2 : list float32 -> list float32;
  search : faiss_index float32 -> list float32 -> Z
           -> outcome (list float32 * list Z);
  index_bytes : Type;
  write_index : faiss_index float32 -> index_bytes;
  read_index : index_bytes -> outcome (faiss_index float32);
  meta_bytes : Type;
  pickle_dump : list chunk_meta -> meta_bytes;
  pickle_load : meta_bytes -> outcome (list chunk_meta);
  detect : str -> outcome str;
  BASE_DIR : str;
  BASE_DIR_plain : has_magic BASE_DIR = false
}.

(** One search hit of [query_index]. *)
Record result (F : Type) : Type :=
  { score : F; rsource : str; rchunk_idx : nat; rtext : str }.
Arguments score {F} _.
Arguments rsource {F} _.
Arguments rchunk_idx {F} _.
Arguments rtext {F} _.

(** [{"query": ..., "lang": ..., "results": ...}] of [query_index]. *)
Record response (F : Type) : Type :=
  { query : str; lang : str; results : list (result F) }.
Arguments query {F} _.
Arguments lang {F} _.
Arguments results {F} _.

(* ------------------------------------------------------------------ *)
(** ** Paths *)

Definition slash : char := 47%N.
Definition dot : char := 46%N.

Fixpoint str_eqb (a b : str) : bool :=
  match a, b with
  | [], [] => true
  | x :: a', y :: b' => N.eqb x y && str_eqb a' b'
  | _, _ => false
  end.

(** [os.path.join(a, b)] on POSIX. *)
Definition path_join (a b : str) : str :=
  match b with
  | c :: _ => if N.eqb c slash then b
              else match a with
                   | [] => b
                   | _ :: _ => if N.eqb (last a 0%N) slash then a ++ b
                               else a ++ slash :: b
                   end
  | [] => match a with
          | [] => []
          | _ :: _ => if N.eqb (last a 0%N) slash then a else a ++ [slash]
          end
  end.

(** The part of [p] after its last slash, scanning with the part read since
    the last slash in [cur]. *)
Fixpoint basename_from (cur p : str) : str :=
  match p with
  | [] => cur
  | c :: p' => if N.eqb c slash then basename_from [] p'
               else basename_from (cur ++ [c]) p'
  end.

(** [os.path.basename(p)] on POSIX. *)
Definition basename (p : str) : str := basename_from [] p.

(** [name.endswith(suffix)]. *)
Definition endswith (name suffix : str) : bool :=
  (length suffix <=? length name)%nat
  && str_eqb (skipn (length name - length suffix) name) suffix.

(** Whether [glob] lets the pattern [*ext] match the directory entry
    [name]: the name ends with [ext], and it is not a hidden entry (the
    pattern does not start with a dot). *)
Definition glob_match (ext name : str) : bool :=
  match name with
  | [] => false
  | c :: _ => negb (N.eqb c dot) && endswith name ext
  end.

(** [p.lstrip("/")]. *)
Fixpoint drop_slashes (p : str) : str :=
  match p with
  | [] => []
  | c :: p' => if N.eqb c slash then drop_slashes p' else p
  end.

(** The directory part that [glob] splits off the pattern
    [os.path.join(doc_dir, "*" + ext)] with [os.path.split]: [doc_dir]
    without its trailing slashes, unless it is made of slashes only. *)
Definition glob_dirname (doc_dir : str) : str :=
  if forallb (fun c => N.eqb c slash) doc_dir then doc_dir
  else rev (drop_slashes (rev doc_dir)).

(** [glob.glob(os.path.join(doc_dir, "*" + ext))] for a [doc_dir] without
    pattern characters ([has_magic doc_dir = false], as [DOCS_DIR] is),
    over the entries of that directory in listing order, each with the
    text read from it.  With pattern characters in [doc_dir], [glob] would
    match the directory part against the file system instead, which is
    outside this definition. *)
Definition glob_read (doc_dir ext : str) (listing : list file)
  : list document :=
  map (fun f => {| path := path_join (glob_dirname doc_dir) (fname f);
                   text := fcontent f |})
      (filter (fun f => glob_match ext (fname f)) listing).

Definition load_text_files (doc_dir : str) (listing : list file)
  : list document :=
  glob_read doc_dir (of_string ".txt") listing
  ++ glob_read doc_dir (of_string ".md") listing.

(* ------------------------------------------------------------------ *)
(** ** The index store *)

Section Pipeline.

Context {C : Capabilities}.

(** The files of the program: the documents directory (absent, or its
    entries) and the two artifacts of the index (absent, or their bytes). *)
Record store : Type := {
  docs_dir : option (list file);
  index_file : option index_bytes;
  meta_file : option meta_bytes
}.

Definition DOCS_DIR : str := path_join BASE_DIR (of_string "docs").
Definition EMB_MODEL_NAME : str := of_string "all-MiniLM-L6-v2".

(** [enumerate(chunks)]. *)
Definition enumerate {A : Type} (l : list A) : list (nat * A) :=
  combine (seq 0 (length l)) l.

(** The inner loop of [build_index], over the chunks of one document. *)
Fixpoint build_chunks (m : model) (doc : document)
  (ichunks : list (nat * str))
  (meta : list chunk_meta) (embeddings : list (list float32))
  : list chunk_meta * list (list float32) :=
  match ichunks with
  | [] => (meta, embeddings)
  | (idx, chunk) :: rest =>
      let emb := encode m chunk in
      let embeddings := embeddings ++ [emb] in
      let meta := meta ++ [{| source := basename (path doc);
                              chunk_idx := idx;
                              ctext := slice chunk 0 600 |}] in
      build_chunks m doc rest meta embeddings
  end.

(** The outer loop of [build_index], over the documents.  The fuel is
    handed to every call of the chunker. *)
Fixpoint build_docs (fuel : nat) (m : model) (docs : list document)
  (meta : list chunk_meta) (embeddings : list (list float32))
  : option (list chunk_meta * list (list float32)) :=
  match docs with
  | [] => Some (meta, embeddings)
  | doc :: rest =>
      match chunk_text fuel (text doc) 300 50 with
      | None => None
      | Some chunks =>
          let '(meta, embeddings) :=
            build_chunks m doc (enumerate chunks) meta embeddings in
          build_docs fuel m rest meta embeddings
      end
  end.

(** [np.vstack(rows)]: the rows stacked as a matrix, when they all have
    the length of the first one. *)
Definition vstack (rows : list (list float32))
  : outcome (list (list float32)) :=
  match rows with
  | [] =>
      Raised (ValueError (of_string "need at least one array to concatenate"))
  | r :: rs =>
      if forallb (fun r' => Nat.eqb (length r') (length r)) rs
      then Returned rows
      else Raised (ValueError (of_string
             "all the input array dimensions must match exactly"))
  end.

(** [xb.shape[0]] and [xb.shape[1]] of a stacked matrix. *)
Definition shape0 (m : list (list float32)) : nat := length m.
Definition shape1 (m : list (list float32)) : nat :=
  match m with [] => 0%nat | r :: _ => length r end.

(** [faiss.write_index(index, INDEX_FILE)] and
    [pickle.dump(meta, open(META_FILE, "wb"))], given the bytes.  Both
    writes are taken to succeed: a write that fails is outside the model,
    and what is stated of a build that raises concerns the errors raised
    before the first write. *)
Definition put_index (b : index_bytes) (st : store) : store :=
  {| docs_dir := docs_dir st;
     index_file := Some b;
     meta_file := meta_file st |}.

Definition put_meta (b : meta_bytes) (st : store) : store :=
  {| docs_dir := docs_dir st;
     index_file := index_file st;
     meta_file := Some b |}.

(** [build_index]: the outcome and the store it leaves; [None] when the
    fuel does not suffice.  The embeddings are float32 rows already, so
    [astype("float32")] changes nothing. *)
Definition build_index (fuel : nat) (model_name : str) (st : store)
  : option (outcome build_info * store) :=
  match SentenceTransformer model_name with
  | Raised e => Some (Raised e, st)
  | Returned m =>
  match docs_dir st with
  | None =>
      Some (Raised (FileNotFoundError
                      (of_string "Docs folder not found: " ++ DOCS_DIR)), st)
  | Some listing =>
  let docs := load_text_files DOCS_DIR listing in
  match build_docs fuel m docs [] [] with
  | None => None
  | Some (meta, embeddings) =>
  match embeddings with
  | [] =>
      Some (Raised
              (ValueError (of_string
                 "No text chunks found in docs. Add .txt or .md files to ./docs")),
            st)
  | _ :: _ =>
  match vstack embeddings with
  | Raised e => Some (Raised e, st)
  | Returned xb0 =>
      let dim := shape1 xb0 in
      let index := IndexFlatIP dim in
      let xb1 := map normalize_L2 xb0 in
      let index := index_add index xb1 in
      let st := put_index (write_index index) st in
      let st := put_meta (pickle_dump meta) st in
      Some (Returned {| vectors := shape0 xb1; dim := dim |}, st)
  end end end end end.

(** [load_index]. *)
Definition load_index (st : store)
  : outcome (faiss_index float32 * list chunk_meta) :=
  match index_file st, meta_file st with
  | Some ib, Some mb =>
      index <- read_index ib ;;
      meta <- pickle_load mb ;;
      Returned (index, meta)
  | _, _ =>
      Raised (FileNotFoundError
                (of_string "Index or meta not found. Run rebuild first."))
  end.

(** [safe_detect_lang]. *)
Definition safe_detect_lang (t : str) : str :=
  match detect t with
  | Returned l => l
  | Raised _ => of_string "unknown"
  end.

(** The loop of [query_index] over [zip(D[0], I[0])].  [float(score)]
    widens the float32 score without changing its value. *)
Fixpoint query_loop (meta : list chunk_meta) (hits : list (float32 * Z))
  (results : list (result float32)) : outcome (list (result float32)) :=
  match hits with
  | [] => Returned results
  | (sc, idx) :: rest =>
      if idx <? 0 then query_loop meta rest results
      else
        match nth_error meta (Z.to_nat idx) with
        | None => Raised (IndexError (of_string "list index out of range"))
        | Some m =>
            query_loop meta rest
              (results ++ [{| score := sc; rsource := source m;
                              rchunk_idx := chunk_idx m; rtext := ctext m |}])
        end
  end.

(** [query_index]. *)
Definition query_index (q : str) (k : Z) (model_name : str) (st : store)
  : outcome (response float32) :=
  m <- SentenceTransformer model_name ;;
  '(index, meta) <- load_index st ;;
  let q_emb := normalize_L2 (encode m q) in
  '(dists, ids) <- search index q_emb k ;;
  results <- query_loop meta (combine dists ids) [] ;;
  Returned {| query := q; lang := safe_detect_lang q; results := results |}.

End Pipeline.

(* ------------------------------------------------------------------ *)
(** ** Closed forms used to state the properties *)

(** A token as [split] produces them: not empty and free of whitespace. *)
Definition is_token (t : str) : Prop :=
  t <> [] /\ forallb nonspace t = true.

(** [size] consecutive elements of [l] from position [start] on (fewer at
    the end of [l]). *)
Definition window {A : Type} (l : list A) (start size : nat) : list A :=
  firstn size (skipn start l).

(** The number of windows over [n] tokens with stride [step]:
    the ceiling of [n / step]. *)
Definition window_count (n : nat) (step : Z) : nat :=
  Z.to_nat ((Z.of_nat n + step - 1) / step).

(** The windows of [chunk_size] tokens at the positions
    [0, step, 2*step, ...] below the token count, each re-joined. *)
Definition windows (tokens : list str) (chunk_size step : Z) : list str :=
  map (fun k => join space
                  (window tokens (k * Z.to_nat step) (Z.to_nat chunk_size)))
      (seq 0 (window_count (length tokens) step)).

(** A chunk of the corpus: its document, its ordinal in the document and
    its full text. *)
Record entry : Type := { e_doc : document; e_idx : nat; e_chunk : str }.

(** The chunks of one document under the fixed policy of the build, in
    text order and numbered from 0. *)
Definition doc_entries (doc : document) : list entry :=
  let chunks := windows (split (text doc)) 300 250 in
  map (fun k => {| e_doc := doc; e_idx := k; e_chunk := nth k chunks [] |})
      (seq 0 (length chunks)).

(** The chunks of a corpus, document after document. *)
Definition corpus_entries (docs : list document) : list entry :=
  flat_map doc_entries docs.

(** The metadata record the build stores for a chunk. *)
Definition entry_meta (e : entry) : chunk_meta :=
  {| source := basename (path (e_doc e));
     chunk_idx := e_idx e;
     ctext := firstn 600 (e_chunk e) |}.

(** The fuel that lets the chunker finish on every document of [docs]. *)
Definition enough_fuel (docs : list document) : nat :=
  S (fold_right Nat.max 0%nat (map (fun doc => length (split (text doc))) docs)).

(** The fuel that lets [build_index] finish on a store. *)
Definition build_fuel {C : Capabilities} (st : store) : nat :=
  match docs_dir st with
  | None => 0%nat
  | Some listing => enough_fuel (load_text_files DOCS_DIR listing)
  end.

(** The vector the index holds for a chunk. *)
Definition entry_vector {C : Capabilities} (m : model) (e : entry)
  : list float32 :=
  normalize_L2 (encode m (e_chunk e)).

(** A hit of the engine that [query_index] keeps: its label is an entry
    index, not the negative placeholder. *)
Definition kept {F : Type} (hit : F * Z) : bool := negb (snd hit <? 0).

(** The result [r] joins the hit with the metadata record stored at the
    hit's entry index. *)
Definition joined {F : Type} (meta : list chunk_meta) (hit : F * Z)
  (r : result F) : Prop :=
  score r = fst hit /\
  0 <= snd hit /\
  nth_error meta (Z.to_nat (snd hit))
  = Some {| source := rsource r; chunk_idx := rchunk_idx r; ctext := rtext r |}.

(** The messages of the errors the program raises itself. *)
Definition docs_not_found {C : Capabilities} : exn :=
  FileNotFoundError (of_string "Docs folder not found: " ++ DOCS_DIR).
Definition no_chunks : exn :=
  ValueError (of_string
    "No text chunks found in docs. Add .txt or .md files to ./docs").
Definition index_not_found : exn :=
  FileNotFoundError (of_string "Index or meta not found. Run rebuild first.").

(* ------------------------------------------------------------------ *)
(** ** A small concrete instance of the capabilities

    Integers stand for floats; the engine is an exact flat inner-product
    search.  The instance serves to run the pipeline on concrete stores. *)

Module Toy.

Definition dotp (a b : list Z) : Z :=
  fold_right Z.add 0 (map (fun p => fst p * snd p) (combine a b)).

(** Insertion into a list ranked by non-increasing score; an entry goes
    after the entries of equal score already there. *)
Fixpoint insert_hit (h : Z * Z) (l : list (Z * Z)) : list (Z * Z) :=
  match l with
  | [] => [h]
  | h' :: l' => if fst h' <? fst h then h :: l else h' :: insert_hit h l'
  end.

Definition ranked (q : list Z) (rows : list (list Z)) : list (Z * Z) :=
  fold_left (fun acc h => insert_hit h acc)
            (combine (map (dotp q) rows)
                     (map Z.of_nat (seq 0 (length rows))))
            [].

(** The score and the label the engine reports where it has no match. *)
Definition no_match : Z * Z := (-1000000, -1).

Definition toy_search (ix : faiss_index Z) (q : list Z) (k : Z)
  : outcome (list Z * list Z) :=
  if k <=? 0 then Raised (AssertionError [])
  else
    let hits := firstn (Z.to_nat k)
                       (ranked q (xb ix) ++ repeat no_match (Z.to_nat k)) in
    Returned (map fst hits, map snd hits).

Definition toy_encode (s : str) : list Z :=
  [Z.of_nat (length s); Z.of_N (hd 0%N s)].

Definition caps : Capabilities := {|
  float32 := Z;
  model := unit;
  SentenceTransformer := fun _ => Returned tt;
  encode := fun _ s => toy_encode s;
  normalize_L2 := fun v => v;
  search := toy_search;
  index_bytes := faiss_index Z;
  write_index := fun ix => ix;
  read_index := fun b => Returned b;
  meta_bytes := list chunk_meta;
  pickle_dump := fun m => m;
  pickle_load := fun b => Returned b;
  detect := fun _ => Raised (ValueError (of_string "No features in text."));
  BASE_DIR := of_string "/srv/rag";
  BASE_DIR_plain := eq_refl
|}.

(** A capability set whose embedding model can not be loaded. *)
Definition caps_no_model : Capabilities := {|
  float32 := Z;
  model := unit;
  SentenceTransformer := fun _ => Raised (OSError (of_string "model not available"));
  encode := fun _ s => toy_encode s;
  normalize_L2 := fun v => v;
  search := toy_search;
  index_bytes := faiss_index Z;
  write_index := fun ix => ix;
  read_index := fun b => Returned b;
  meta_bytes := list chunk_meta;
  pickle_dump := fun m => m;
  pickle_load := fun b => Returned b;
  detect := fun _ => Raised (ValueError (of_string "No features in text."));
  BASE_DIR := of_string "/srv/rag";
  BASE_DIR_plain := eq_refl
|}.

Definition mkfile (name content : string) : file :=
  {| fname := of_string name; fcontent := of_string content |}.

(** A store with two documents and no index yet. *)
Definition fresh : store (C := caps) :=
  {| docs_dir := Some [mkfile "b.md" "gamma delta epsilon";
                       mkfile "notes.log" "ignored";
                       mkfile "a.txt" "hello world"];
     index_file := None;
     meta_file := None |}.

(** A store without documents directory. *)
Definition no_docs : store (C := caps) :=
  {| docs_dir := None; index_file := None; meta_file := None |}.

(** A store whose only eligible document is blank. *)
Definition blank_docs : store (C := caps) :=
  {| docs_dir := Some [mkfile "a.txt" "  "; mkfile "c.bin" "data"];
     index_file := None;
     meta_file := None |}.

(** Two artifacts that disagree on the number of entries: two vectors,
    one metadata record. *)
Definition mismatched : store (C := caps) :=
  {| docs_dir := None;
     index_file := Some (write_index (Capabilities := caps)
                           {| d := 2%nat; xb := [[1; 0]; [0; 1]] |});
     meta_file := Some (pickle_dump (Capabilities := caps)
                          [{| source := of_string "a.txt"; chunk_idx := 0%nat;
                              ctext := of_string "hello world" |}]) |}.

(** A store with one document of 400 tokens. *)
Definition long_doc : store (C := caps) :=
  {| docs_dir := Some [{| fname := of_string "long.txt";
                          fcontent := concat (repeat (of_string "lorem ") 400) |}];
     index_file := None;
     meta_file := None |}.

(** The store a run of [build_index] leaves ([st] itself when the fuel
    does not suffice). *)
Definition after_build (fuel : nat) (st : store (C := caps)) : store (C := caps) :=
  match build_index fuel EMB_MODEL_NAME st with
  | Some (_, st') => st'
  | None => st
  end.

Definition built : store (C := caps) := after_build 4 fresh.
Definition built_long : store (C := caps) := after_build 401 long_doc.

End Toy.

(* ------------------------------------------------------------------ *)
(** ** Further definitions used to state properties *)

(** A directory entry that [load_text_files] reads. *)
Definition eligible (f : file) : bool :=
  glob_match (of_string ".txt") (fname f)
  || glob_match (of_string ".md") (fname f).

(** The document read from a directory entry. *)
Definition document_of (doc_dir : str) (f : file) : document :=
  {| path := path_join (glob_dirname doc_dir) (fname f);
     text := fcontent f |}.


(** A capability set whose embeddings have the length of the text
    embedded. *)
Definition caps_ragged : Capabilities := {|
  float32 := Z;
  model := unit;
  SentenceTransformer := fun _ => Returned tt;
  encode := fun _ s => repeat 1 (length s);
  normalize_L2 := fun v => v;
  search := Toy.toy_search;
  index_bytes := faiss_index Z;
  write_index := fun ix => ix;
  read_index := fun b => Returned b;
  meta_bytes := list chunk_meta;
  pickle_dump := fun m => m;
  pickle_load := fun b => Returned b;
  detect := fun _ => Returned (of_string "en");
  BASE_DIR := of_string "/srv/rag";
  BASE_DIR_plain := eq_refl
|}.

(** The documents of [Toy.fresh], read with [caps_ragged]. *)
Definition fresh_ragged : store (C := caps_ragged) :=
  {| docs_dir := Some [Toy.mkfile "b.md" "gamma delta epsilon";
                       Toy.mkfile "a.txt" "hello world"];
     index_file := None;
     meta_file := None |}.

(* ------------------------------------------------------------------ *)
(** ** Answer synthesis *)

Definition nl : str := [10%N].
Definition dquote : str := [34%N].

(** [s.lstrip()], [s.rstrip()] and [s.strip()] without argument. *)
Fixpoint lstrip (s : str) : str :=
  match s with
  | [] => []
  | c :: s' => if isspace c then lstrip s' else s
  end.

Definition rstrip (s : str) : str := rev (lstrip (rev s)).

Definition strip (s : str) : str := rstrip (lstrip s).

(** [str(n)] of an int that is not negative. *)
Definition str_of_nat (n : nat) : str :=
  of_string (NilZero.string_of_uint (Nat.to_uint n)).

(** [os.environ]: the variables and their values. *)
Definition environment : Type := list (str * str).

(** [os.environ.get(key)]. *)
Fixpoint environ_get (environ : environment) (key : str) : option str :=
  match environ with
  | [] => None
  | (k, v) :: rest => if str_eqb k key then Some v else environ_get rest key
  end.

(** The chat capability: whether the library could be imported, and
    [openai.ChatCompletion.create] at temperature 0 with a single user
    message, given the key, the model name, the content of the message
    and [max_tokens]; it answers with the contents of the choices. *)
Class Assistant : Type := {
  OPENAI_AVAILABLE : bool;
  ChatCompletion_create : str -> str -> str -> Z -> outcome (list str)
}.

Definition not_configured : str :=
  of_string "LLM synthesis not configured; returning cited passages instead.".

(** The loop of [synthesize_answer] that appends one passage per chunk. *)
Fixpoint prompt_loop {F : Type} (chunks : list (result F)) (prompt : str)
  : str :=
  match chunks with
  | [] => prompt
  | c :: rest =>
      prompt_loop rest
        (prompt ++ of_string "[" ++ rsource c ++ of_string " | chunk "
         ++ str_of_nat (rchunk_idx c) ++ of_string "]: " ++ rtext c
         ++ nl ++ nl)
  end.

(** [synthesize_answer]. *)
Definition synthesize_answer {F : Type} {A : Assistant}
  (environ : environment) (q : str) (chunks : list (result F))
  (max_tokens : Z) : outcome str :=
  match (if OPENAI_AVAILABLE
         then environ_get environ (of_string "OPENAI_API_KEY")
         else None) with
  | None => Returned not_configured
  | Some api_key =>
      let prompt :=
        of_string "You are a helpful assistant. "
        ++ of_string "Use the following source passages to answer the query. "
        ++ of_string "Cite each passage by filename and chunk index "
        ++ of_string "in square brackets."
        ++ nl ++ nl
        ++ of_string "Query: " ++ q ++ nl ++ nl ++ of_string "Sources:" ++ nl in
      let prompt := prompt_loop chunks prompt in
      let prompt :=
        prompt ++ nl
        ++ of_string "Provide a concise answer in the same language as "
        ++ of_string "the query and include citations like "
        ++ of_string "[file.txt|chunk 0]." in
      choices <- ChatCompletion_create api_key (of_string "gpt-4o-mini")
                   prompt max_tokens ;;
      match choices with
      | [] => Raised (IndexError (of_string "list index out of range"))
      | content :: _ => Returned (strip content)
      end
  end.

(** A text that neither starts nor ends with whitespace. *)
Definition trimmed (s : str) : Prop :=
  (forall c, hd_error s = Some c -> isspace c = false) /\
  (forall c, hd_error (rev s) = Some c -> isspace c = false).

(* ------------------------------------------------------------------ *)
(** ** The web application and the command line *)

(** What the entry points take from their host: readings of
    [time.time()], the rounding and the formatting of floats, and whether
    Flask could be imported. *)
Class Host {C : Capabilities} : Type := {
  clock : Type;
  round_elapsed : clock -> clock -> clock;
  format_elapsed : clock -> clock -> str;
  format_score : float32 -> str;
  Flask_available : bool
}.

(** [str(e)] of an exception built from its message. *)
Definition exn_message (e : exn) : str :=
  match e with
  | FileNotFoundError msg | ValueError msg | IndexError msg | OSError msg
  | AssertionError msg => msg
  end.

Section EntryPoints.

Context {C : Capabilities} {H : Host}.

(** The JSON documents the routes answer with: [{"status": "ok", ...}]
    of the rebuild route, [{"status": "ok", ...}] of the query route and
    [{"status": "error", "message": ...}]. *)
Inductive reply : Type :=
| RebuildOk (nvectors ndim : nat) (time : clock)
| QueryOk (rquery rlang : str) (rresults : list (result float32)) (time : clock)
| Failed (message : str).

(** The body of a query request, for the bodies that are JSON objects
    holding at most a string under ["query"] and an integer under ["k"];
    [None] is a request whose body is absent. *)
Record query_body : Type := { b_query : option str; b_k : option Z }.

(** The route [/rebuild]; [t0] and [t1] are the two readings of the
    clock. *)
Definition route_rebuild (fuel : nat) (t0 t1 : clock) (st : store)
  : option ((reply * Z) * store) :=
  match build_index fuel EMB_MODEL_NAME st with
  | None => None
  | Some (Returned info, st') =>
      Some ((RebuildOk (vectors info) (dim info) (round_elapsed t0 t1), 200),
            st')
  | Some (Raised e, st') => Some ((Failed (exn_message e), 500), st')
  end.

(** The route [/query]. *)
Definition route_query (body : option query_body) (t0 t1 : clock)
  (st : store) : reply * Z :=
  let body := match body with
              | Some b => b
              | None => {| b_query := None; b_k := None |}
              end in
  let q := match b_query body with Some q => q | None => [] end in
  let k := match b_k body with Some k => k | None => 3 end in
  match q with
  | [] => (Failed (of_string "query required"), 400)
  | _ :: _ =>
      match query_index q k EMB_MODEL_NAME st with
      | Returned res =>
          (QueryOk (query res) (lang res) (results res)
                   (round_elapsed t0 t1), 200)
      | Raised e => (Failed (exn_message e), 500)
      end
  end.

(** The arguments [argparse] hands to [cli_main]. *)
Record cli_args : Type := {
  arg_serve : bool;
  arg_host : str;
  arg_port : Z;
  arg_rebuild : bool;
  arg_query : option str;
  arg_k : Z
}.

(** What [cli_main] does to the outside: a call of [print], the help of
    the parser, the start of the server. *)
Inductive event : Type :=
| Print (line : str)
| PrintHelp
| AppRun (host : str) (port : Z).

(** How [cli_main] ends: normally after its events, with an exception of
    the pipeline that nothing catches, or with the [ImportError] of
    [create_app] when Flask is missing. *)
Inductive cli_result : Type :=
| Done (out : list event)
| Uncaught (e : exn)
| FlaskMissing.

(** The two lines printed for the result of rank [i]. *)
Definition print_result (i : nat) (r : result float32) : list event :=
  [Print (str_of_nat i ++ of_string ". Source: " ++ rsource r
          ++ of_string " (chunk " ++ str_of_nat (rchunk_idx r)
          ++ of_string ") " ++ [8212%N] ++ of_string " score "
          ++ format_score (score r));
   Print (of_string "   " ++ dquote ++ slice (rtext r) 0 400 ++ dquote)].

(** [for i, r in enumerate(res['results'], 1): ...]. *)
Fixpoint print_results (i : nat) (rs : list (result float32)) : list event :=
  match rs with
  | [] => []
  | r :: rest => print_result i r ++ print_results (S i) rest
  end.

(** [cli_main], after the arguments are parsed. *)
Definition cli_main (fuel : nat) (args : cli_args) (t0 t1 : clock)
  (st : store) : option (cli_result * store) :=
  if arg_rebuild args then
    match build_index fuel EMB_MODEL_NAME st with
    | None => None
    | Some (Raised e, st') => Some (Uncaught e, st')
    | Some (Returned info, st') =>
        Some (Done [Print (of_string "Rebuilt index: "
                           ++ str_of_nat (vectors info)
                           ++ of_string " vectors (dim="
                           ++ str_of_nat (dim info) ++ of_string ") in "
                           ++ format_elapsed t0 t1 ++ of_string "s")],
              st')
    end
  else
    match arg_query args with
    | Some (c :: q') =>
        match query_index (c :: q') (arg_k args) EMB_MODEL_NAME st with
        | Raised e => Some (Uncaught e, st)
        | Returned res =>
            Some (Done ([Print (of_string "Detected language: " ++ lang res);
                         Print (of_string "Query: " ++ query res ++ nl)]
                        ++ print_results 1 (results res)
                        ++ [Print (nl ++ of_string "--- Report ---");
                            Print (of_string "Elapsed time: "
                                   ++ format_elapsed t0 t1 ++ of_string "s")]),
                  st)
        end
    | _ =>
        if arg_serve args then
          if Flask_available
          then Some (Done [AppRun (arg_host args) (arg_port args)], st)
          else Some (FlaskMissing, st)
        else Some (Done [PrintHelp], st)
    end.

End EntryPoints.

(** A host for the small instance: clock readings are integers. *)
Definition toy_host : Host (C := Toy.caps) := {|
  clock := Z;
  round_elapsed := fun t0 t1 => t1 - t0;
  format_elapsed := fun t0 t1 => of_string "0.00";
  format_score := fun sc => of_string "1.0000";
  Flask_available := true
|}.

(** A reading of the clock of [toy_host]. *)
Definition toy_time (z : Z) : clock (Host := toy_host) := z.

(** A chat capability that answers with one choice, padded with
    whitespace. *)
Definition toy_assistant : Assistant := {|
  OPENAI_AVAILABLE := true;
  ChatCompletion_create := fun _ _ _ _ =>
    Returned [of_string "  The answer [a.txt|chunk 0].  " ++ nl]
|}.

(* ================================================================== *)
(** * Properties *)

(* ------------------------------------------------------------------ *)
(** ** The definitions on small inputs *)

Example split_runs :
  split (of_string "  hello   big world ")
  = [of_string "hello"; of_string "big"; of_string "world"].
Proof. reflexivity. Qed.

Example split_tabs_newlines :
  split [104; 105; 9; 10; 160; 8195; 121; 111]%N = [[104; 105]; [121; 111]]%N.
Proof. reflexivity. Qed.

Example slice_negative_bounds :
  slice [1; 2; 3; 4; 5] (-2) (-1) = [4] /\ slice [1; 2; 3; 4; 5] 0 (-1) = [1; 2; 3; 4]
  /\ slice [1; 2; 3; 4; 5] 3 300 = [4; 5] /\ slice [1; 2; 3; 4; 5] 7 9 = [].
Proof. repeat split. Qed.

Example chunk_text_overlapping :
  chunk_text 10 (of_string " a b  c d e ") 3 1
  = Some [of_string "a b c"; of_string "c d e"; of_string "e"].
Proof. reflexivity. Qed.

Example chunk_text_out_of_fuel :
  chunk_text 3 (of_string " a b  c d e ") 3 1 = None.
Proof. reflexivity. Qed.

Example glob_match_cases :
  glob_match (of_string ".txt") (of_string "a.txt") = true /\
  glob_match (of_string ".txt") (of_string ".txt") = false /\
  glob_match (of_string ".md") (of_string "a.md.bak") = false /\
  glob_match (of_string ".txt") (of_string "A.TXT") = false.
Proof. repeat split. Qed.

Example basename_cases :
  basename (path_join (of_string "/srv/rag/docs") (of_string "a.txt"))
  = of_string "a.txt" /\
  path_join (of_string "") (of_string "docs") = of_string "docs" /\
  path_join (of_string "/srv/") (of_string "docs") = of_string "/srv/docs".
Proof. repeat split. Qed.

(* ------------------------------------------------------------------ *)
(** ** Splitting and joining *)

Section SplitFacts.

Lemma split_from_is_token (s : str) :
  forall cur, forallb nonspace cur = true -> Forall is_token (split_from cur s).
Proof.
  induction s as [|c s IH]; intros cur Hcur; simpl.
  - destruct cur; constructor; [split; [discriminate | exact Hcur] | constructor].
  - destruct (isspace c) eqn:Hc.
    + destruct cur.
      * apply IH. reflexivity.
      * constructor; [split; [discriminate | exact Hcur] | apply IH; reflexivity].
    + apply IH. rewrite forallb_app, Hcur. simpl. unfold nonspace. now rewrite Hc.
Qed.

Lemma split_is_token (s : str) : Forall is_token (split s).
Proof. apply split_from_is_token. reflexivity. Qed.

Lemma split_from_blank (s : str) :
  forall cur, forallb isspace s = true ->
    split_from cur s = match cur with [] => [] | _ :: _ => [cur] end.
Proof.
  induction s as [|c s IH]; intros cur Hs; simpl in *.
  - reflexivity.
  - apply andb_prop in Hs. destruct Hs as [Hc Hs]. rewrite Hc.
    destruct cur; rewrite (IH [] Hs); reflexivity.
Qed.

Lemma split_from_nil_inv (s : str) :
  forall cur, split_from cur s = [] -> cur = [] /\ forallb isspace s = true.
Proof.
  induction s as [|c s IH]; intros cur H; simpl in *.
  - destruct cur; [auto | discriminate].
  - destruct (isspace c) eqn:Hc.
    + destruct cur; [|discriminate]. destruct (IH _ H). auto.
    + destruct (IH _ H) as [Habs _]. now destruct cur.
Qed.

(** A text has no token exactly when all its characters are whitespace. *)
Lemma split_nil_iff (s : str) : split s = [] <-> forallb isspace s = true.
Proof.
  split.
  - intros H. now destruct (split_from_nil_inv s [] H).
  - intros H. unfold split. now rewrite split_from_blank.
Qed.

Lemma split_from_nonspace (t : str) :
  forall cur rest, forallb nonspace t = true ->
    split_from cur (t ++ rest) = split_from (cur ++ t) rest.
Proof.
  induction t as [|c t IH]; intros cur rest Ht; simpl in *.
  - now rewrite app_nil_r.
  - apply andb_prop in Ht. destruct Ht as [Hc Ht]. unfold nonspace in Hc.
    destruct (isspace c); [discriminate|].
    rewrite IH by exact Ht. now rewrite <- app_assoc.
Qed.

(** Re-joining tokens with single spaces and splitting again gives the
    tokens back. *)
Lemma split_join (ts : list str) :
  Forall is_token ts -> split (join space ts) = ts.
Proof.
  unfold split. induction 1 as [|t ts [Hne Hns] Hts IH]; [reflexivity|].
  destruct ts as [|t' ts'].
  - simpl. rewrite <- (app_nil_r t) at 1.
    rewrite split_from_nonspace by exact Hns. simpl. now destruct t.
  - change (join space (t :: t' :: ts'))
      with (t ++ space ++ join space (t' :: ts')).
    rewrite split_from_nonspace by exact Hns.
    change (space ++ join space (t' :: ts'))
      with (32%N :: join space (t' :: ts')).
    cbn [split_from app]. change (isspace 32%N) with true. cbv iota.
    rewrite IH. now destruct t.
Qed.

Lemma join_nonempty (t : str) (ts : list str) :
  t <> [] -> join space (t :: ts) <> [].
Proof.
  intros Ht. destruct t; [contradiction|]. destruct ts; simpl; discriminate.
Qed.

End SplitFacts.

(* ------------------------------------------------------------------ *)
(** ** Slices *)

Section SliceFacts.

Context {A : Type}.

(** With bounds that are not negative, a slice is a window. *)
Lemma slice_window (l : list A) (i n : Z) :
  0 <= i -> 0 <= n ->
  slice l i (i + n) = window l (Z.to_nat i) (Z.to_nat n).
Proof.
  intros Hi Hn. unfold slice, window, adjust_index.
  destruct (Z.ltb_spec i 0); [lia|].
  destruct (Z.ltb_spec (i + n) 0); [lia|].
  set (len := Z.of_nat (length l)).
  destruct (Z.le_gt_cases len i) as [Hout | Hin].
  - rewrite (skipn_all2 l) by lia.
    rewrite (skipn_all2 l) by lia. now rewrite !firstn_nil.
  - replace (Z.to_nat (Z.min i len)) with (Z.to_nat i) by lia.
    destruct (Z.le_gt_cases (i + n) len).
    + f_equal. lia.
    + rewrite !firstn_all2; trivial; rewrite length_skipn; lia.
Qed.

(** [l[:n]] keeps the first [n] elements. *)
Lemma slice_prefix (l : list A) (n : Z) :
  0 <= n -> slice l 0 n = firstn (Z.to_nat n) l.
Proof. intros Hn. exact (slice_window l 0 n (Z.le_refl 0) Hn). Qed.

Lemma window_nonempty (l : list A) (start size : nat) :
  (start < length l)%nat -> (0 < size)%nat -> window l start size <> [].
Proof.
  intros Hs Hz Habs. apply (f_equal (@length A)) in Habs.
  unfold window in Habs. rewrite length_firstn, length_skipn in Habs.
  simpl in Habs. lia.
Qed.

Lemma window_incl (l : list A) (start size : nat) (x : A) :
  In x (window l start size) -> In x l.
Proof.
  unfold window. intros H.
  rewrite <- (firstn_skipn start l). apply in_or_app. right.
  rewrite <- (firstn_skipn size (skipn start l)). apply in_or_app. now left.
Qed.

End SliceFacts.

(* ------------------------------------------------------------------ *)
(** ** The loop of the chunker *)

Section ChunkLoop.

Variable tokens : list str.
Variables chunk_size overlap : Z.

(** When the stride is not positive and there is a token, the start
    position never leaves the token list: no amount of fuel ends the
    loop. *)
Lemma chunk_loop_diverges (fuel : nat) :
  chunk_size - overlap <= 0 -> tokens <> [] ->
  forall i chunks, i <= 0 ->
    chunk_loop fuel tokens chunk_size overlap i chunks = None.
Proof.
  intros Hstep Hne. induction fuel as [|fuel IH]; intros i chunks Hi.
  - reflexivity.
  - simpl. destruct (Z.ltb_spec i (Z.of_nat (length tokens))) as [_|Hge].
    + apply IH. lia.
    + destruct tokens; [contradiction | simpl in Hge; lia].
Qed.

(** With a positive stride, [n] more windows from position [i] on, and
    more than [n] units of fuel, the loop ends having appended exactly the
    [n] windows at [i], [i + step], ..., with
    [step = chunk_size - overlap]. *)
Lemma chunk_loop_windows (n : nat) :
  0 < chunk_size - overlap -> 0 <= chunk_size ->
  forall fuel i chunks,
    0 <= i ->
    Z.of_nat (length tokens) <= i + Z.of_nat n * (chunk_size - overlap) ->
    (forall n', n = S n' ->
       i + Z.of_nat n' * (chunk_size - overlap) < Z.of_nat (length tokens)) ->
    (n < fuel)%nat ->
    chunk_loop fuel tokens chunk_size overlap i chunks
    = Some (chunks ++
            map (fun k => join space
                   (window tokens
                      (Z.to_nat (i + Z.of_nat k * (chunk_size - overlap)))
                      (Z.to_nat chunk_size)))
                (seq 0 n)).
Proof.
  intros Hstep Hcs.
  induction n as [|n IH]; intros fuel i chunks Hi Hup Hlow Hfuel;
    (destruct fuel as [|fuel]; [lia|]); simpl chunk_loop.
  - destruct (Z.ltb_spec i (Z.of_nat (length tokens))); [lia|].
    simpl. now rewrite app_nil_r.
  - specialize (Hlow n eq_refl).
    destruct (Z.ltb_spec i (Z.of_nat (length tokens))); [|nia].
    rewrite (IH fuel (i + (chunk_size - overlap))) by lia.
    + rewrite <- app_assoc. apply f_equal, f_equal.
      rewrite <- cons_seq, <- seq_shift, map_cons, map_map.
      change ([?x] ++ ?l) with (x :: l). apply f_equal2.
      * rewrite slice_window by lia.
        replace (i + Z.of_nat 0 * (chunk_size - overlap)) with i by lia.
        reflexivity.
      * apply map_ext. intros k.
        replace (i + (chunk_size - overlap)
                 + Z.of_nat k * (chunk_size - overlap))
          with (i + Z.of_nat (S k) * (chunk_size - overlap)) by lia.
        reflexivity.
Qed.

End ChunkLoop.

(** The number of windows: its defining inequalities. *)
Lemma window_count_bounds (n : nat) (step : Z) :
  0 < step ->
  let q := Z.of_nat (window_count n step) in
  Z.of_nat n <= q * step /\ (0 < q -> (q - 1) * step < Z.of_nat n)
  /\ q <= Z.of_nat n.
Proof.
  intros Hstep q. subst q. unfold window_count.
  assert (Hnn : 0 <= (Z.of_nat n + step - 1) / step)
    by (apply Z.div_pos; lia).
  rewrite Z2Nat.id by exact Hnn.
  pose proof (Z.div_mod (Z.of_nat n + step - 1) step ltac:(lia)) as Hdm.
  pose proof (Z.mod_pos_bound (Z.of_nat n + step - 1) step Hstep) as Hmod.
  set (q := (Z.of_nat n + step - 1) / step) in *.
  repeat split; nia.
Qed.

(** Under the precondition of the chunker, one unit of fuel more than
    the token count is enough, and the chunks are the windows. *)
Lemma chunk_text_enough (fuel : nat) (txt : str) (chunk_size overlap : Z) :
  0 < chunk_size -> overlap < chunk_size ->
  (length (split txt) < fuel)%nat ->
  chunk_text fuel txt chunk_size overlap
  = Some (windows (split txt) chunk_size (chunk_size - overlap)).
Proof.
  intros Hcs Hov Hfuel. unfold chunk_text, windows.
  set (tokens := split txt) in *. set (step := chunk_size - overlap).
  assert (Hstep : 0 < step) by (unfold step; lia).
  destruct (window_count_bounds (length tokens) step Hstep) as (Hup & Hlow & Hle).
  rewrite (chunk_loop_windows tokens chunk_size overlap
             (window_count (length tokens) step)); fold step; try lia.
  simpl app. apply f_equal, map_ext. intros k.
  replace (Z.to_nat (Z.of_nat k * step)) with (k * Z.to_nat step)%nat by nia.
  reflexivity.
Qed.

(* ------------------------------------------------------------------ *)
(** ** The chunker: claims *)

Lemma nth_error_map_seq {A : Type} (f : nat -> A) (n k : nat) :
  (k < n)%nat -> nth_error (map f (seq 0 n)) k = Some (f k).
Proof.
  intros Hk. rewrite nth_error_map, nth_error_seq.
  destruct (Nat.ltb_spec k n); [reflexivity | lia].
Qed.

Lemma length_windows (tokens : list str) (chunk_size step : Z) :
  length (windows tokens chunk_size step) = window_count (length tokens) step.
Proof. unfold windows. now rewrite length_map, length_seq. Qed.

(** Every window below the window count starts inside the token list. *)
Lemma window_start_lt (n : nat) (step : Z) (k : nat) :
  0 < step -> (k < window_count n step)%nat -> (k * Z.to_nat step < n)%nat.
Proof.
  intros Hstep Hk.
  destruct (window_count_bounds n step Hstep) as (_ & Hlow & _). nia.
Qed.

Lemma window_is_token (tokens : list str) (start size : nat) :
  Forall is_token tokens -> Forall is_token (window tokens start size).
Proof.
  rewrite !Forall_forall. intros H t Ht. apply H. revert Ht. apply window_incl.
Qed.

(** The chunks under the precondition are not empty. *)
Lemma windows_nonempty (txt : str) (chunk_size step : Z) :
  0 < chunk_size -> 0 < step ->
  Forall (fun c => c <> []) (windows (split txt) chunk_size step).
Proof.
  intros Hcs Hstep. unfold windows. rewrite Forall_forall. intros c Hc.
  apply in_map_iff in Hc. destruct Hc as (k & <- & Hk).
  apply in_seq in Hk.
  assert (Hlt : (k * Z.to_nat step < length (split txt))%nat)
    by (apply window_start_lt; lia).
  pose proof (window_nonempty (split txt) _ (Z.to_nat chunk_size) Hlt
                ltac:(lia)) as Hne.
  pose proof (window_is_token (split txt) (k * Z.to_nat step)
                (Z.to_nat chunk_size) (split_is_token txt)) as Htok.
  destruct (window (split txt) (k * Z.to_nat step) (Z.to_nat chunk_size))
    as [|t ts]; [contradiction|].
  apply join_nonempty. inversion Htok as [|? ? [Ht _] _]. exact Ht.
Qed.

(** C1 (as the code behaves).  The chunker does not compare [overlap] with
    [chunk_size] and raises nothing.  With [overlap >= chunk_size] a text
    without tokens yields the empty sequence, as soon as the loop condition
    is tested once; a text with at least one token keeps the loop running
    whatever the fuel. *)
Theorem chunk_text_overlap_ge_size (txt : str) (chunk_size overlap : Z)
  (Hge : chunk_size <= overlap) :
  (split txt = [] ->
     forall fuel, chunk_text (S fuel) txt chunk_size overlap = Some []) /\
  (split txt <> [] ->
     forall fuel, chunk_text fuel txt chunk_size overlap = None).
Proof.
  unfold chunk_text. split.
  - intros -> fuel. reflexivity.
  - intros Hne fuel. apply chunk_loop_diverges; [lia | exact Hne | lia].
Qed.

Lemma chunk_text_overlap_ge_size_witness :
  chunk_text 1 (of_string "  ") 5 5 = Some [] /\
  forall fuel, chunk_text fuel (of_string "a b") 5 7 = None.
Proof.
  split.
  - apply (proj1 (chunk_text_overlap_ge_size (of_string "  ") 5 5 ltac:(lia))).
    reflexivity.
  - apply (proj2 (chunk_text_overlap_ge_size (of_string "a b") 5 7 ltac:(lia))).
    discriminate.
Defined.

(** C1, as stated, fails: with [overlap = chunk_size = 1] the call on the
    empty text returns normally (the empty sequence, no error), and the call
    on the text "a" never returns. *)
Lemma chunk_text_overlap_not_rejected :
  chunk_text 1 (of_string "") 1 1 = Some [] /\
  forall fuel, chunk_text fuel (of_string "a") 1 1 = None.
Proof.
  split; [reflexivity|].
  intros fuel. unfold chunk_text.
  apply chunk_loop_diverges; [lia | discriminate | lia].
Qed.

(** C2.  Under the precondition [0 < chunk_size], [0 <= overlap < chunk_size]
    the chunker ends (one unit of fuel more than the token count suffices)
    and returns the windows of [chunk_size] tokens that start at the
    positions [0], [step], [2*step], ... below the token count (all of
    them, so the last, partial window is there), with
    [step = chunk_size - overlap]: the tokens are the whitespace-free,
    non-empty runs of the text; chunk [k] is the re-joined window at
    [k*step], its own tokens are that window and its first token is token
    [k*step]; every token position lies in some window; no chunk is empty.
    The text "hello world" with 300/50 gives the single chunk
    "hello world". *)
Theorem chunk_text_windows_ok (txt : str) (chunk_size overlap : Z)
  (Hsize : 0 < chunk_size) (Hov : 0 <= overlap < chunk_size) :
  let tokens := split txt in
  let step := Z.to_nat (chunk_size - overlap) in
  let size := Z.to_nat chunk_size in
  let n := window_count (length tokens) (chunk_size - overlap) in
  Forall is_token tokens /\
  (forall fuel, (length tokens < fuel)%nat ->
     exists chunks,
       chunk_text fuel txt chunk_size overlap = Some chunks /\
       length chunks = n /\
       (forall k, (k < n)%nat <-> (k * step < length tokens)%nat) /\
       (forall k, (k < n)%nat ->
          (k * step < length tokens)%nat /\
          nth_error chunks k
            = Some (join space (window tokens (k * step) size)) /\
          split (nth k chunks []) = window tokens (k * step) size /\
          hd_error (split (nth k chunks [])) = nth_error tokens (k * step)) /\
       (forall p, (p < length tokens)%nat ->
          exists k, (k < n)%nat /\ (k * step <= p < k * step + size)%nat) /\
       Forall (fun c => c <> []) chunks) /\
  (forall fuel, (2 < fuel)%nat ->
     chunk_text fuel (of_string "hello world") 300 50
     = Some [of_string "hello world"]).
Proof.
  intros tokens step size n.
  assert (Hstep : 0 < chunk_size - overlap) by lia.
  split; [apply split_is_token|]. split.
  - intros fuel Hfuel. exists (windows tokens chunk_size (chunk_size - overlap)).
    split; [apply chunk_text_enough; [lia | lia | exact Hfuel]|].
    split; [apply length_windows|].
    split; [|split; [|split]].
    + intros k. split; [now apply window_start_lt|].
      intros Hk.
      destruct (window_count_bounds (length tokens) (chunk_size - overlap) Hstep)
        as (Hup & _ & _). fold n in Hup. unfold step in Hk. nia.
    + intros k Hk.
      assert (Hlt : (k * step < length tokens)%nat)
        by (apply window_start_lt; assumption).
      assert (Hnth : nth_error (windows tokens chunk_size (chunk_size - overlap)) k
                     = Some (join space (window tokens (k * step) size)))
        by (unfold windows; now rewrite nth_error_map_seq).
      assert (Hsplit : split (nth k (windows tokens chunk_size
                                       (chunk_size - overlap)) [])
                       = window tokens (k * step) size).
      { rewrite (nth_error_nth _ _ _ Hnth). apply split_join.
        apply window_is_token, split_is_token. }
      repeat split; trivial.
      rewrite Hsplit. unfold window.
      assert (Hsz : (0 < size)%nat) by (unfold size; lia).
      destruct size as [|size']; [lia|].
      rewrite <- hd_error_skipn.
      now destruct (skipn (k * step) tokens).
    + intros p Hp.
      destruct (window_count_bounds (length tokens) (chunk_size - overlap) Hstep)
        as (Hup & _ & _). fold n in Hup.
      exists (p / step)%nat.
      assert (Hs : (0 < step)%nat) by (unfold step; lia).
      pose proof (Nat.div_mod_eq p step) as Hdm.
      pose proof (Nat.mod_upper_bound p step ltac:(lia)) as Hmod.
      assert (Hle : (step <= size)%nat) by (unfold step, size; lia).
      assert (Hstep' : Z.of_nat step = chunk_size - overlap)
        by (unfold step; lia).
      rewrite <- Hstep' in Hup.
      repeat split; nia.
    + apply windows_nonempty; lia.
  - intros fuel Hfuel.
    rewrite chunk_text_enough; [reflexivity | lia | lia | exact Hfuel].
Qed.

Lemma chunk_text_windows_ok_witness :
  exists chunks,
    chunk_text 6 (of_string " a b  c d e ") 3 1 = Some chunks /\
    length chunks = 3%nat /\
    nth_error chunks 1 = Some (of_string "c d e").
Proof.
  destruct (chunk_text_windows_ok (of_string " a b  c d e ") 3 1
              ltac:(lia) ltac:(lia)) as (_ & Hrun & _).
  destruct (Hrun 6%nat ltac:(vm_compute; lia))
    as (chunks & Heq & Hlen & _ & Hnth & _).
  exists chunks. split; [exact Heq|]. split; [exact Hlen|].
  exact (proj1 (proj2 (Hnth 1%nat ltac:(vm_compute; lia)))).
Defined.

(* ------------------------------------------------------------------ *)
(** ** Fuel *)

(** More fuel does not change a result the loop has reached. *)
Lemma chunk_loop_mono (tokens : list str) (chunk_size overlap : Z) (fuel : nat) :
  forall i chunks r fuel',
    chunk_loop fuel tokens chunk_size overlap i chunks = Some r ->
    (fuel <= fuel')%nat ->
    chunk_loop fuel' tokens chunk_size overlap i chunks = Some r.
Proof.
  induction fuel as [|fuel IH]; intros i chunks r fuel' Hrun Hle.
  - discriminate.
  - destruct fuel' as [|fuel']; [lia|]. simpl in *.
    destruct (i <? Z.of_nat (length tokens)); [|exact Hrun].
    apply IH; [exact Hrun | lia].
Qed.

(** Whatever the fuel, a result of the chunker under its precondition is
    the list of windows. *)
Lemma chunk_text_some (fuel : nat) (txt : str) (chunk_size overlap : Z)
  (chunks : list str) :
  0 < chunk_size -> overlap < chunk_size ->
  chunk_text fuel txt chunk_size overlap = Some chunks ->
  chunks = windows (split txt) chunk_size (chunk_size - overlap).
Proof.
  intros Hcs Hov Hrun.
  pose (fuel' := (fuel + S (length (split txt)))%nat).
  assert (H1 : chunk_text fuel' txt chunk_size overlap = Some chunks)
    by (apply (chunk_loop_mono _ _ _ fuel); [exact Hrun | unfold fuel'; lia]).
  rewrite chunk_text_enough in H1 by (unfold fuel'; lia).
  now inversion H1.
Qed.

(* ------------------------------------------------------------------ *)
(** ** Paths and the documents read *)





(** The documents read are the eligible entries of the directory: those
    on [.txt] in listing order, then those on [.md] in listing order. *)
Lemma load_text_files_in (doc_dir : str) (listing : list file) (doc : document) :
  In doc (load_text_files doc_dir listing) ->
  exists f, In f listing /\
    (glob_match (of_string ".txt") (fname f) = true
     \/ glob_match (of_string ".md") (fname f) = true) /\
    path doc = path_join (glob_dirname doc_dir) (fname f) /\
    text doc = fcontent f.
Proof.
  unfold load_text_files, glob_read. intros H.
  apply in_app_or in H.
  destruct H as [H | H]; apply in_map_iff in H; destruct H as (f & <- & Hf);
    apply filter_In in Hf; destruct Hf as [Hin Hm]; exists f; simpl; auto.
Qed.

(* ------------------------------------------------------------------ *)
(** ** The loops of the build *)

Lemma enumerate_seq {A : Type} (l : list A) (dflt : A) :
  enumerate l = map (fun k => (k, nth k l dflt)) (seq 0 (length l)).
Proof.
  unfold enumerate.
  enough (H : forall s, combine (seq s (length l)) l
                        = map (fun k => (k, nth (k - s) l dflt)) (seq s (length l))).
  { rewrite H. apply map_ext. intros k. now rewrite Nat.sub_0_r. }
  induction l as [|x l IH]; intros s; simpl.
  - reflexivity.
  - rewrite Nat.sub_diag. f_equal. rewrite IH.
    apply map_ext_in. intros k Hk. apply in_seq in Hk.
    replace (k - s)%nat with (S (k - S s)) by lia. reflexivity.
Qed.

Section BuildLoops.

Context {C : Capabilities}.

Lemma build_chunks_spec (m : model) (doc : document) (ichunks : list (nat * str)) :
  forall meta embeddings,
    build_chunks m doc ichunks meta embeddings
    = (meta ++ map (fun ic => entry_meta {| e_doc := doc; e_idx := fst ic;
                                            e_chunk := snd ic |}) ichunks,
       embeddings ++ map (fun ic => encode m (snd ic)) ichunks).
Proof.
  induction ichunks as [|[idx chunk] rest IH]; intros meta embeddings; simpl.
  - now rewrite !app_nil_r.
  - rewrite IH, <- !app_assoc. unfold entry_meta at 2. simpl.
    now rewrite (slice_prefix chunk 600) by lia.
Qed.

Lemma build_chunks_doc (m : model) (doc : document) (chunks : list str)
  (meta : list chunk_meta) (embeddings : list (list float32)) :
  chunks = windows (split (text doc)) 300 250 ->
  build_chunks m doc (enumerate chunks) meta embeddings
  = (meta ++ map entry_meta (doc_entries doc),
     embeddings ++ map (fun e => encode m (e_chunk e)) (doc_entries doc)).
Proof.
  intros ->. rewrite build_chunks_spec, (enumerate_seq (A := str) _ []).
  unfold doc_entries. now rewrite !map_map.
Qed.

(** A result of the outer loop is the closed form, whatever the fuel. *)
Lemma build_docs_some (fuel : nat) (m : model) (docs : list document) :
  forall meta embeddings r,
    build_docs fuel m docs meta embeddings = Some r ->
    r = (meta ++ map entry_meta (corpus_entries docs),
         embeddings ++ map (fun e => encode m (e_chunk e)) (corpus_entries docs)).
Proof.
  induction docs as [|doc rest IH]; intros meta embeddings r Hrun; simpl in *.
  - inversion Hrun. now rewrite !app_nil_r.
  - destruct (chunk_text fuel (text doc) 300 50) as [chunks|] eqn:Hc;
      [|discriminate].
    apply chunk_text_some in Hc; [|lia|lia].
    rewrite (build_chunks_doc m doc chunks) in Hrun by exact Hc.
    apply IH in Hrun. subst r. now rewrite !map_app, !app_assoc.
Qed.

(** With enough fuel the outer loop ends. *)
Lemma build_docs_enough (fuel : nat) (m : model) (docs : list document) :
  (enough_fuel docs <= fuel)%nat ->
  forall meta embeddings,
    exists r, build_docs fuel m docs meta embeddings = Some r.
Proof.
  unfold enough_fuel.
  induction docs as [|doc rest IH]; intros Hfuel meta embeddings; simpl in *.
  - eauto.
  - rewrite chunk_text_enough by lia.
    destruct (build_chunks m doc _ meta embeddings) as [meta' emb'].
    apply IH. lia.
Qed.

(** Blank documents add nothing, and one test of the loop condition per
    document suffices. *)
Lemma build_docs_blank (fuel : nat) (m : model) (docs : list document) :
  Forall (fun doc => forallb isspace (text doc) = true) docs ->
  forall meta embeddings,
    build_docs (S fuel) m docs meta embeddings = Some (meta, embeddings).
Proof.
  induction 1 as [|doc rest Hdoc _ IH]; intros meta embeddings.
  - reflexivity.
  - cbn [build_docs]. unfold chunk_text.
    apply split_nil_iff in Hdoc. rewrite Hdoc. cbn. apply IH.
Qed.

Lemma vstack_returned (rows xb0 : list (list float32)) :
  vstack rows = Returned xb0 ->
  xb0 = rows /\ Forall (fun r => length r = shape1 xb0) rows.
Proof.
  unfold vstack. destruct rows as [|r rs]; [discriminate|].
  destruct (forallb _ rs) eqn:Hall; [|discriminate].
  intros H. inversion H. subst xb0. split; [reflexivity|].
  constructor; [reflexivity|]. simpl.
  rewrite forallb_forall in Hall. apply Forall_forall. intros r' Hr'.
  now apply Nat.eqb_eq, Hall.
Qed.

End BuildLoops.

(* ------------------------------------------------------------------ *)
(** ** The build *)

Section Build.

Context {C : Capabilities}.

(** What a build that returns has done: the model was loaded, the
    documents directory exists and holds at least one chunk, all the
    embeddings have the dimension reported, and the two artifacts hold the
    normalised vectors and the metadata of the chunks of the corpus, in
    the order of the corpus. *)
Lemma build_index_returned (fuel : nat) (name : str) (st st' : store)
  (info : build_info) :
  build_index fuel name st = Some (Returned info, st') ->
  exists m listing,
    SentenceTransformer name = Returned m /\
    docs_dir st = Some listing /\
    let ents := corpus_entries (load_text_files DOCS_DIR listing) in
    ents <> [] /\
    st' = {| docs_dir := docs_dir st;
             index_file := Some (write_index
                                   {| d := dim info;
                                      xb := map (entry_vector m) ents |});
             meta_file := Some (pickle_dump (map entry_meta ents)) |} /\
    vectors info = length ents /\
    Forall (fun e => length (encode m (e_chunk e)) = dim info) ents.
Proof.
  unfold build_index. intros Hrun.
  destruct (SentenceTransformer name) as [m|e] eqn:Hm; [|inversion Hrun].
  destruct (docs_dir st) as [listing|] eqn:Hd; [|inversion Hrun].
  exists m, listing. split; [reflexivity|]. split; [reflexivity|].
  set (docs := load_text_files DOCS_DIR listing) in *.
  destruct (build_docs fuel m docs [] []) as [[meta embeddings]|] eqn:Hb;
    [|discriminate].
  apply build_docs_some in Hb. simpl in Hb. inversion Hb as [[Hmeta Hemb]].
  clear Hb.
  destruct embeddings as [|emb embs]; [inversion Hrun|].
  destruct (vstack (emb :: embs)) as [xb0|e] eqn:Hv; [|inversion Hrun].
  apply vstack_returned in Hv. destruct Hv as [-> Hrows].
  injection Hrun as Hinfo Hst. subst info st'. cbn [dim vectors].
  unfold index_add, IndexFlatIP, put_meta, put_index, shape0.
  cbn [docs_dir index_file meta_file d xb app].
  change (normalize_L2 emb :: map normalize_L2 embs)
    with (map normalize_L2 (emb :: embs)).
  change (S (length (map normalize_L2 embs)))
    with (length (map normalize_L2 (emb :: embs))).
  change (length emb) with (shape1 (emb :: embs)).
  assert (Hne : corpus_entries docs <> [])
    by (intros Habs; rewrite Habs in Hemb; discriminate).
  rewrite Hemb in *. rewrite Hmeta, Hd, map_map, !length_map. clear Hemb.
  repeat split; trivial.
  rewrite Forall_map in Hrows. exact Hrows.
Qed.

(** With the fuel of the store the build ends. *)
Lemma build_index_total (fuel : nat) (name : str) (st : store) :
  (build_fuel st <= fuel)%nat ->
  exists out st', build_index fuel name st = Some (out, st').
Proof.
  unfold build_fuel, build_index. intros Hfuel.
  destruct (SentenceTransformer name) as [m|e]; [|eauto].
  destruct (docs_dir st) as [listing|]; [|eauto].
  destruct (build_docs_enough fuel m _ Hfuel [] []) as ([meta embeddings] & ->).
  destruct embeddings as [|emb embs]; [eauto|].
  destruct (vstack (emb :: embs)); eauto.
Qed.

(** A build that raises leaves the store as it was. *)
Lemma build_index_raised (fuel : nat) (name : str) (st st' : store) (e : exn) :
  build_index fuel name st = Some (Raised e, st') -> st' = st.
Proof.
  unfold build_index. intros Hrun.
  destruct (SentenceTransformer name) as [m|e0]; [|now inversion Hrun].
  destruct (docs_dir st) as [listing|]; [|now inversion Hrun].
  destruct (build_docs fuel m _ [] []) as [[meta embeddings]|]; [|discriminate].
  destruct embeddings as [|emb embs]; [now inversion Hrun|].
  destruct (vstack (emb :: embs)); now inversion Hrun.
Qed.

End Build.

(* ------------------------------------------------------------------ *)
(** ** The build: claims *)

Lemma map_flat_map {A B D : Type} (f : B -> D) (g : A -> list B) (l : list A) :
  map f (flat_map g l) = flat_map (fun x => map f (g x)) l.
Proof.
  induction l as [|x l IH]; simpl; [reflexivity|]. now rewrite map_app, IH.
Qed.

Lemma doc_entries_idx (doc : document) :
  map e_idx (doc_entries doc) = seq 0 (length (doc_entries doc)).
Proof.
  unfold doc_entries. rewrite map_map, length_map, length_seq. simpl.
  apply map_id.
Qed.

(** An entry of the corpus is chunk number [e_idx] of one of its
    documents. *)
Lemma corpus_entries_in (docs : list document) (e : entry) :
  In e (corpus_entries docs) ->
  In (e_doc e) docs /\
  nth_error (windows (split (text (e_doc e))) 300 250) (e_idx e)
  = Some (e_chunk e).
Proof.
  unfold corpus_entries. intros H. apply in_flat_map in H.
  destruct H as (doc & Hdoc & He). unfold doc_entries in He.
  apply in_map_iff in He. destruct He as (k & <- & Hk). apply in_seq in Hk.
  simpl. split; [exact Hdoc|]. apply nth_error_nth'. lia.
Qed.

(** A corpus has no chunk exactly when none of its documents has a
    token. *)
Lemma corpus_entries_nil_iff (docs : list document) :
  corpus_entries docs = [] <-> Forall (fun doc => split (text doc) = []) docs.
Proof.
  unfold corpus_entries. induction docs as [|doc docs IH]; simpl.
  - split; [constructor | reflexivity].
  - assert (Hdoc : doc_entries doc = [] <-> split (text doc) = []).
    { unfold doc_entries. rewrite length_windows.
      destruct (window_count_bounds (length (split (text doc))) 250 ltac:(lia))
        as (Hup & Hlow & Hle).
      destruct (window_count (length (split (text doc))) 250) eqn:Hn.
      - simpl. split; [intros _ | reflexivity].
        apply length_zero_iff_nil. lia.
      - simpl. split; [discriminate|]. intros Hs. rewrite Hs in Hle.
        simpl in Hle. lia. }
    split.
    + intros H. apply app_eq_nil in H. destruct H as [H1 H2].
      constructor; [now apply Hdoc | now apply IH].
    + intros H. inversion H as [|? ? H1 H2]. subst.
      apply Hdoc in H1. apply IH in H2. now rewrite H1, H2.
Qed.

Section BuildClaims.

Context {C : Capabilities}.

(** C9.  With the fuel of the store the build ends, and a build that
    returns leaves two artifacts that pair up: as many vectors as metadata
    records, as many as the build reports; position [i] of both describes
    the same chunk of the corpus, the vector being the normalised embedding
    of that chunk; the records follow the documents in the order they were
    read and, within a document, the chunks in text order, [chunk_idx]
    counting from 0 by steps of 1, [source] being the base name of the
    document's path. *)
Theorem build_index_pairing (name : str) (st : store) :
  (forall fuel, (build_fuel st <= fuel)%nat ->
     exists out st', build_index fuel name st = Some (out, st')) /\
  (forall fuel info st',
     build_index fuel name st = Some (Returned info, st') ->
     exists m listing vecs meta,
       SentenceTransformer name = Returned m /\
       docs_dir st = Some listing /\
       index_file st' = Some (write_index {| d := dim info; xb := vecs |}) /\
       meta_file st' = Some (pickle_dump meta) /\
       let docs := load_text_files DOCS_DIR listing in
       length vecs = length meta /\
       length meta = vectors info /\
       length (corpus_entries docs) = vectors info /\
       (forall i e, nth_error (corpus_entries docs) i = Some e ->
          nth_error meta i = Some (entry_meta e) /\
          nth_error vecs i = Some (entry_vector m e)) /\
       meta = flat_map (fun doc => map entry_meta (doc_entries doc)) docs /\
       (forall doc,
          map chunk_idx (map entry_meta (doc_entries doc))
          = seq 0 (length (doc_entries doc))) /\
       (forall doc,
          Forall (fun r => source r = basename (path doc))
                 (map entry_meta (doc_entries doc)))).
Proof.
  split.
  - intros fuel Hfuel. now apply build_index_total.
  - intros fuel info st' Hrun.
    destruct (build_index_returned fuel name st st' info Hrun)
      as (m & listing & Hm & Hd & Hne & -> & Hvec & Hdim).
    exists m, listing,
      (map (entry_vector m) (corpus_entries (load_text_files DOCS_DIR listing))),
      (map entry_meta (corpus_entries (load_text_files DOCS_DIR listing))).
    cbn [index_file meta_file]. rewrite !length_map.
    repeat split; auto.
    + now apply map_nth_error.
    + now apply map_nth_error.
    + apply map_flat_map.
    + intros doc. rewrite map_map. cbn [entry_meta chunk_idx].
      apply doc_entries_idx.
    + intros doc. rewrite Forall_map. unfold doc_entries.
      rewrite Forall_map. apply Forall_forall. reflexivity.
Qed.

(** C8.  In a build that returns, every chunk that the chunker emits for
    a document of the corpus under the policy 300/50 has a position in the
    index: the vector stored there is the normalised embedding of the
    whole chunk, while the text stored in the metadata record at that
    position is the first 600 characters of the chunk, beside the base
    name of the document and the ordinal of the chunk.  The index holds
    nothing else: every position comes from such a chunk, and both
    artifacts have as many positions as the build reports. *)
Theorem build_index_embeds_full_chunk (fuel : nat) (name : str)
  (st st' : store) (info : build_info)
  (Hrun : build_index fuel name st = Some (Returned info, st')) :
  exists m listing vecs meta,
    SentenceTransformer name = Returned m /\
    docs_dir st = Some listing /\
    index_file st' = Some (write_index {| d := dim info; xb := vecs |}) /\
    meta_file st' = Some (pickle_dump meta) /\
    length vecs = vectors info /\
    length meta = vectors info /\
    (forall doc fuel' chunks k chunk,
       In doc (load_text_files DOCS_DIR listing) ->
       chunk_text fuel' (text doc) 300 50 = Some chunks ->
       nth_error chunks k = Some chunk ->
       exists i,
         nth_error vecs i = Some (normalize_L2 (encode m chunk)) /\
         nth_error meta i = Some {| source := basename (path doc);
                                    chunk_idx := k;
                                    ctext := firstn 600 chunk |}) /\
    (forall i, (i < vectors info)%nat ->
       exists doc chunks k chunk,
         In doc (load_text_files DOCS_DIR listing) /\
         chunk_text (S (length (split (text doc)))) (text doc) 300 50
         = Some chunks /\
         nth_error chunks k = Some chunk /\
         nth_error vecs i = Some (normalize_L2 (encode m chunk)) /\
         nth_error meta i = Some {| source := basename (path doc);
                                    chunk_idx := k;
                                    ctext := firstn 600 chunk |}).
Proof.
  destruct (build_index_returned fuel name st st' info Hrun)
    as (m & listing & Hm & Hd & Hne & -> & Hvec & Hdim).
  set (ents := corpus_entries (load_text_files DOCS_DIR listing)) in *.
  exists m, listing, (map (entry_vector m) ents), (map entry_meta ents).
  cbn [index_file meta_file]. rewrite !length_map.
  do 6 (split; [auto|]). split.
  - intros doc fuel' chunks k chunk Hdoc Hchunks Hk.
    apply chunk_text_some in Hchunks; [|lia|lia]. subst chunks.
    change (300 - 50) with 250 in Hk.
    assert (Hin : In {| e_doc := doc; e_idx := k; e_chunk := chunk |} ents).
    { unfold ents, corpus_entries. apply in_flat_map. exists doc.
      split; [exact Hdoc|]. unfold doc_entries. apply in_map_iff.
      exists k. split.
      - now rewrite (nth_error_nth _ _ _ Hk).
      - apply in_seq. split; [lia|]. simpl. apply nth_error_Some. congruence. }
    destruct (In_nth_error _ _ Hin) as (i & Hi). exists i. split.
    + exact (map_nth_error (entry_vector m) i ents Hi).
    + exact (map_nth_error entry_meta i ents Hi).
  - intros i Hi. rewrite Hvec in Hi.
    destruct (nth_error ents i) as [e|] eqn:He;
      [|apply nth_error_None in He; lia].
    destruct (corpus_entries_in _ e (nth_error_In _ _ He)) as [Hdoc Hchunk].
    exists (e_doc e), (windows (split (text (e_doc e))) 300 250),
           (e_idx e), (e_chunk e).
    split; [exact Hdoc|].
    split; [apply chunk_text_enough; lia|].
    split; [exact Hchunk|].
    split; [exact (map_nth_error (entry_vector m) i ents He)|].
    exact (map_nth_error entry_meta i ents He).
Qed.

(** C4.  Provided the two serialisers give back what they were given,
    loading after a build that returned yields the index and the metadata
    the build held in memory when it wrote them: the entry count and the
    dimension are those the build reported, and every search on the loaded
    index answers as on the index in memory. *)
Theorem build_then_load (fuel : nat) (name : str) (st st' : store)
  (info : build_info)
  (Hidx : forall ix, read_index (write_index ix) = Returned ix)
  (Hmeta : forall meta, pickle_load (pickle_dump meta) = Returned meta)
  (Hrun : build_index fuel name st = Some (Returned info, st')) :
  exists m listing,
    SentenceTransformer name = Returned m /\
    docs_dir st = Some listing /\
    let ents := corpus_entries (load_text_files DOCS_DIR listing) in
    let ix := index_add (IndexFlatIP (dim info)) (map (entry_vector m) ents) in
    let meta := map entry_meta ents in
    index_file st' = Some (write_index ix) /\
    meta_file st' = Some (pickle_dump meta) /\
    load_index st' = Returned (ix, meta) /\
    ntotal ix = vectors info /\
    d ix = dim info /\
    length meta = vectors info /\
    forall ix' meta',
      load_index st' = Returned (ix', meta') ->
      ntotal ix' = vectors info /\ d ix' = dim info /\ meta' = meta /\
      forall q k, search ix' q k = search ix q k.
Proof.
  destruct (build_index_returned fuel name st st' info Hrun)
    as (m & listing & Hm & Hd & Hne & -> & Hvec & Hdim).
  exists m, listing. split; [exact Hm|]. split; [exact Hd|].
  intros ents ix meta.
  assert (Hload : load_index
            {| docs_dir := docs_dir st;
               index_file := Some (write_index ix);
               meta_file := Some (pickle_dump meta) |} = Returned (ix, meta)).
  { unfold load_index. cbn [index_file meta_file].
    rewrite Hidx. cbn [bind]. rewrite Hmeta. reflexivity. }
  assert (Hn : ntotal ix = vectors info)
    by (unfold ntotal, ix; cbn; now rewrite length_map).
  assert (Hl : length meta = vectors info)
    by (unfold meta; now rewrite length_map).
  change {| d := dim info; xb := map (entry_vector m) ents |} with ix.
  fold meta. cbn [index_file meta_file].
  do 6 (split; [trivial|]).
  intros ix' meta' Hload'.
  pose proof (eq_trans (eq_sym Hload') Hload) as E.
  injection E as -> ->. auto.
Qed.

(** C6.  A build on a store without documents directory, or on a corpus
    without any chunk, ends with an error and the store it leaves is the
    store it was given: the error is the one the program raises for the
    case whenever the embedding model could be loaded (otherwise it is the
    error of the model loader).  More generally no build that raises
    changes the store. *)
Theorem build_index_fails_cleanly (name : str) (st : store) :
  (docs_dir st = None ->
     forall fuel, exists e,
       build_index fuel name st = Some (Raised e, st) /\
       forall m, SentenceTransformer name = Returned m -> e = docs_not_found) /\
  (forall listing,
     docs_dir st = Some listing ->
     corpus_entries (load_text_files DOCS_DIR listing) = [] ->
     forall fuel, (build_fuel st <= fuel)%nat -> exists e,
       build_index fuel name st = Some (Raised e, st) /\
       forall m, SentenceTransformer name = Returned m -> e = no_chunks) /\
  (forall fuel e st',
     build_index fuel name st = Some (Raised e, st') -> st' = st).
Proof.
  split; [|split].
  - intros Hd fuel. unfold build_index. rewrite Hd.
    destruct (SentenceTransformer name) as [m|e].
    + exists docs_not_found. split; [reflexivity | trivial].
    + exists e. split; [reflexivity | discriminate].
  - intros listing Hd Hnone fuel Hfuel. unfold build_index.
    unfold build_fuel in Hfuel. rewrite Hd in *.
    destruct (SentenceTransformer name) as [m|e].
    + exists no_chunks. split; [|trivial].
      destruct (build_docs_enough fuel m _ Hfuel [] []) as (r & Hr).
      rewrite Hr. apply build_docs_some in Hr. rewrite Hnone in Hr.
      subst r. reflexivity.
    + exists e. split; [reflexivity | discriminate].
  - intros fuel e st'. apply build_index_raised.
Qed.

(** C10.  A text has no token exactly when it is empty or all whitespace;
    on such a text the chunker tests its loop condition once and returns
    the empty sequence, whatever the chunk size and the overlap.  A build
    over a directory whose eligible files are all such texts raises the
    empty-corpus error and leaves the store as it was. *)
Theorem blank_text_no_chunk :
  (forall txt, split txt = [] <-> forallb isspace txt = true) /\
  (forall txt, split txt = [] ->
     forall fuel chunk_size overlap,
       chunk_text (S fuel) txt chunk_size overlap = Some []) /\
  (forall name st listing m,
     SentenceTransformer name = Returned m ->
     docs_dir st = Some listing ->
     (forall f, In f listing ->
        glob_match (of_string ".txt") (fname f) = true
        \/ glob_match (of_string ".md") (fname f) = true ->
        split (fcontent f) = []) ->
     forall fuel,
       build_index (S fuel) name st = Some (Raised no_chunks, st)).
Proof.
  split; [exact split_nil_iff|]. split.
  - intros txt Hsplit fuel chunk_size overlap. unfold chunk_text.
    now rewrite Hsplit.
  - intros name st listing m Hm Hd Hblank fuel. unfold build_index.
    rewrite Hm, Hd. rewrite build_docs_blank; [reflexivity|].
    apply Forall_forall. intros doc Hdoc.
    apply load_text_files_in in Hdoc.
    destruct Hdoc as (f & Hin & Hmatch & _ & ->).
    apply split_nil_iff. now apply Hblank.
Qed.

End BuildClaims.

Lemma build_index_pairing_witness :
  exists info st',
    build_index (C := Toy.caps) 4 EMB_MODEL_NAME Toy.fresh
    = Some (Returned info, st') /\
    vectors info = 2%nat /\
    exists meta,
      meta_file st' = Some meta /\
      map source meta = [of_string "a.txt"; of_string "b.md"] /\
      map chunk_idx meta = [0%nat; 0%nat].
Proof.
  eexists. eexists. split; [vm_compute; reflexivity|].
  split; [reflexivity|].
  destruct (proj2 (build_index_pairing (C := Toy.caps) EMB_MODEL_NAME Toy.fresh)
              4%nat _ _ eq_refl)
    as (m & listing & vecs & meta & _ & Hd & _ & Hmeta & _ & _ & _ & _ & Hflat & _).
  exists meta. split; [exact Hmeta|].
  injection Hd as <-. rewrite Hflat. vm_compute. split; reflexivity.
Defined.

(** Two runs of the build on concrete stores. *)
Lemma toy_build :
  build_index (C := Toy.caps) 4 EMB_MODEL_NAME Toy.fresh
  = Some (Returned {| vectors := 2; dim := 2 |}, Toy.built).
Proof. vm_compute. reflexivity. Qed.

Lemma toy_build_long :
  build_index (C := Toy.caps) 401 EMB_MODEL_NAME Toy.long_doc
  = Some (Returned {| vectors := 2; dim := 2 |}, Toy.built_long).
Proof. vm_compute. reflexivity. Qed.

Lemma build_index_embeds_full_chunk_witness :
  exists vecs meta chunk,
    index_file Toy.built_long = Some {| d := 2; xb := vecs |} /\
    meta_file Toy.built_long = Some meta /\
    length vecs = 2%nat /\
    nth_error vecs 0 = Some (Toy.toy_encode chunk) /\
    option_map ctext (nth_error meta 0) = Some (firstn 600 chunk).
Proof.
  destruct (build_index_embeds_full_chunk (C := Toy.caps) _ _ _ _ _
              toy_build_long)
    as (m & listing & vecs & meta & _ & _ & Hix & Hmeta & Hlen & _ & _ & Hall).
  destruct (Hall 0%nat ltac:(vm_compute; lia))
    as (doc & chunks & k & chunk & _ & _ & _ & Hv & Hm).
  exists vecs, meta, chunk.
  split; [exact Hix|]. split; [exact Hmeta|]. split; [exact Hlen|].
  split; [exact Hv|].
  rewrite Hm. reflexivity.
Defined.

(** On that run the first chunk has 1799 characters: the vector is
    computed from all of them and 600 are stored. *)
Example long_chunk_truncated :
  exists vecs meta,
    index_file Toy.built_long = Some {| d := 2; xb := vecs |} /\
    meta_file Toy.built_long = Some meta /\
    nth_error vecs 0 = Some [1799; 108] /\
    option_map (fun r => length (ctext r)) (nth_error meta 0) = Some 600%nat.
Proof. vm_compute. do 2 eexists. repeat split; reflexivity. Qed.

Lemma build_then_load_witness :
  exists ix meta,
    load_index (C := Toy.caps) Toy.built = Returned (ix, meta) /\
    ntotal ix = 2%nat /\ d ix = 2%nat /\ length meta = 2%nat.
Proof.
  destruct (build_then_load (C := Toy.caps) _ _ _ _ _
              (fun ix => eq_refl) (fun meta => eq_refl) toy_build)
    as (m & listing & _ & _ & _ & _ & Hload & Hn & Hd & Hl & _).
  eexists. eexists. split; [exact Hload|]. split; [exact Hn|].
  split; [exact Hd | exact Hl].
Defined.

Lemma build_index_fails_cleanly_witness :
  (exists e, build_index (C := Toy.caps) 0 EMB_MODEL_NAME Toy.no_docs
             = Some (Raised e, Toy.no_docs)) /\
  (exists e, build_index (C := Toy.caps) 1 EMB_MODEL_NAME Toy.blank_docs
             = Some (Raised e, Toy.blank_docs)).
Proof.
  split.
  - destruct (proj1 (build_index_fails_cleanly (C := Toy.caps)
                       EMB_MODEL_NAME Toy.no_docs) eq_refl 0%nat) as (e & He & _).
    exists e. exact He.
  - destruct (proj1 (proj2 (build_index_fails_cleanly (C := Toy.caps)
                              EMB_MODEL_NAME Toy.blank_docs))
                _ eq_refl eq_refl 1%nat ltac:(vm_compute; lia)) as (e & He & _).
    exists e. exact He.
Defined.

Lemma blank_text_no_chunk_witness :
  chunk_text 1 (of_string "   ") 300 50 = Some [] /\
  build_index (C := Toy.caps) 1 EMB_MODEL_NAME Toy.blank_docs
  = Some (Raised no_chunks, Toy.blank_docs).
Proof.
  split.
  - apply (proj1 (proj2 (blank_text_no_chunk (C := Toy.caps)))). reflexivity.
  - apply (proj2 (proj2 (blank_text_no_chunk (C := Toy.caps)))
             EMB_MODEL_NAME Toy.blank_docs _ tt eq_refl eq_refl).
    intros f Hin Hmatch.
    destruct Hin as [<- | [<- | []]]; [reflexivity|].
    destruct Hmatch; discriminate.
Defined.

(* ------------------------------------------------------------------ *)
(** ** Loading and querying *)

Section SortedFacts.

Context {A B : Type} (R : A -> A -> Prop).

(** Dropping hits keeps the scores in order. *)
Lemma sorted_filter_combine (p : A * B -> bool) (xs : list A) :
  StronglySorted R xs ->
  forall ys, StronglySorted R (map fst (filter p (combine xs ys))).
Proof.
  induction 1 as [|x xs Hxs IH Hall]; intros ys; simpl.
  - constructor.
  - destruct ys as [|y ys]; simpl; [constructor|].
    destruct (p (x, y)); [|apply IH].
    simpl. constructor; [apply IH|].
    rewrite Forall_forall in *. intros x' Hx'. apply Hall.
    apply in_map_iff in Hx'. destruct Hx' as ([a b] & <- & Hin).
    apply filter_In in Hin. destruct Hin as [Hin _].
    now apply in_combine_l in Hin.
Qed.

End SortedFacts.

Section Query.

Context {C : Capabilities}.

Lemma query_loop_spec (meta : list chunk_meta) (hits : list (float32 * Z)) :
  Forall (fun hit => snd hit < Z.of_nat (length meta)) hits ->
  forall acc, exists rs,
    query_loop meta hits acc = Returned (acc ++ rs) /\
    Forall2 (joined meta) (filter kept hits) rs.
Proof.
  induction 1 as [|[sc idx] hits Hidx _ IH]; intros acc.
  - exists []. simpl. rewrite app_nil_r. split; constructor.
  - simpl in Hidx. cbn [query_loop filter]. unfold kept at 1. cbn [snd].
    destruct (Z.ltb_spec idx 0) as [Hneg | Hpos]; cbn [negb].
    + apply IH.
    + destruct (nth_error meta (Z.to_nat idx)) as [m|] eqn:Hnth;
        [|apply nth_error_None in Hnth; lia].
      destruct (IH (acc ++ [{| score := sc; rsource := source m;
                               rchunk_idx := chunk_idx m; rtext := ctext m |}]))
        as (rs & Hrun & Hrs).
      eexists (_ :: rs). rewrite Hrun, <- app_assoc. split; [reflexivity|].
      constructor; [|exact Hrs].
      unfold joined. cbn. rewrite Hnth. now destruct m.
Qed.

(** A hit whose entry index lies beyond the metadata makes the loop raise. *)
Lemma query_loop_out_of_range (meta : list chunk_meta) (sc : float32) (idx : Z)
  (rest : list (float32 * Z)) (acc : list (result float32)) :
  Z.of_nat (length meta) <= idx ->
  query_loop meta ((sc, idx) :: rest) acc
  = Raised (IndexError (of_string "list index out of range")).
Proof.
  intros Hidx. cbn [query_loop].
  destruct (Z.ltb_spec idx 0); [lia|].
  destruct (nth_error meta (Z.to_nat idx)) eqn:Hnth; [|reflexivity].
  assert (nth_error meta (Z.to_nat idx) <> None) by congruence.
  apply nth_error_Some in H0. lia.
Qed.

Lemma joined_scores (meta : list chunk_meta) (hits : list (float32 * Z))
  (rs : list (result float32)) :
  Forall2 (joined meta) hits rs -> map score rs = map fst hits.
Proof.
  induction 1 as [|hit r hits rs [Hs _] _ IH]; simpl; [reflexivity|].
  now rewrite Hs, IH.
Qed.

(** C3 (as the code behaves).  When the model loads, the index loads,
    and the engine answers the search for [k > 0] with [k] scores in order
    (for whatever order [R] they are in) and [k] labels that are below the
    number of metadata records loaded (the query looks the records up
    without checking that there is one for every vector), the query
    returns: at most [k] results, their scores in the
    same order, one result for each hit whose label is not negative and
    none for the others, each result carrying the score of its hit and
    the source, chunk index and text of the metadata record at the
    hit's label. *)
Theorem query_index_results (q : str) (k : Z) (name : str) (st : store)
  (m : model) (ix : faiss_index float32) (meta : list chunk_meta)
  (dists : list float32) (ids : list Z) (R : float32 -> float32 -> Prop)
  (Hk : 0 < k)
  (Hm : SentenceTransformer name = Returned m)
  (Hload : load_index st = Returned (ix, meta))
  (Hsearch : search ix (normalize_L2 (encode m q)) k = Returned (dists, ids))
  (Hdists : length dists = Z.to_nat k)
  (Hids : length ids = Z.to_nat k)
  (Hsorted : StronglySorted R dists)
  (Hrange : Forall (fun idx => idx < Z.of_nat (length meta)) ids) :
  exists resp,
    query_index q k name st = Returned resp /\
    query resp = q /\
    (length (results resp) <= Z.to_nat k)%nat /\
    StronglySorted R (map score (results resp)) /\
    Forall2 (joined meta) (filter kept (combine dists ids)) (results resp).
Proof.
  assert (Hhits : Forall (fun hit : float32 * Z =>
                            snd hit < Z.of_nat (length meta))
                         (combine dists ids)).
  { rewrite Forall_forall in *. intros [sc idx] Hin.
    apply in_combine_r in Hin. now apply Hrange. }
  destruct (query_loop_spec meta (combine dists ids) Hhits []) as (rs & Hrun & Hrs).
  exists {| query := q; lang := safe_detect_lang q; results := rs |}.
  unfold query_index. rewrite Hm. cbn [bind]. rewrite Hload. cbn [bind].
  rewrite Hsearch. cbn [bind]. rewrite Hrun. cbn [bind app results query].
  split; [reflexivity|]. split; [reflexivity|].
  split; [|split; [|exact Hrs]].
  - rewrite <- (Forall2_length Hrs).
    pose proof (filter_length_le kept (combine dists ids)) as Hle.
    rewrite length_combine in Hle. lia.
  - rewrite (joined_scores _ _ _ Hrs). now apply sorted_filter_combine.
Qed.

(** C5 (as the code behaves).  [load_index] compares no entry counts:
    when one of the artifacts is missing it raises the not-found error,
    and when both artifacts are present and can be read it returns the
    index and the metadata as they are, whatever their sizes. *)
Theorem load_index_no_count_check (st : store) :
  (index_file st = None \/ meta_file st = None ->
   load_index st = Raised index_not_found) /\
  (forall ib mb ix meta,
     index_file st = Some ib -> meta_file st = Some mb ->
     read_index ib = Returned ix -> pickle_load mb = Returned meta ->
     load_index st = Returned (ix, meta)).
Proof.
  unfold load_index. split.
  - intros [-> | ->]; [reflexivity|]. now destruct (index_file st).
  - intros ib mb ix meta Hib Hmb Hix Hmeta.
    rewrite Hib, Hmb, Hix. cbn [bind]. now rewrite Hmeta.
Qed.

(** C7.  When one of the two artifacts is missing, [load_index] raises
    the not-found error of the index; a query on such a store never
    returns a response, and raises that same error whenever the embedding
    model could be loaded. *)
Theorem query_before_build (st : store)
  (Hmiss : index_file st = None \/ meta_file st = None) :
  load_index st = Raised index_not_found /\
  forall q k name,
    (forall resp, query_index q k name st <> Returned resp) /\
    (forall m, SentenceTransformer name = Returned m ->
       query_index q k name st = Raised index_not_found).
Proof.
  assert (Hload : load_index st = Raised index_not_found).
  { unfold load_index.
    destruct Hmiss as [-> | ->]; [reflexivity|].
    now destruct (index_file st). }
  split; [exact Hload|]. intros q k name. unfold query_index.
  destruct (SentenceTransformer name) as [m|e]; cbn [bind].
  - rewrite Hload. cbn [bind]. split; [discriminate|reflexivity].
  - split; [discriminate|]. intros m Hm. discriminate.
Qed.

End Query.

Lemma query_index_results_witness :
  exists resp,
    query_index (C := Toy.caps) (of_string "hello") 3 EMB_MODEL_NAME Toy.built
    = Returned resp /\
    (length (results resp) <= 3)%nat /\
    StronglySorted Z.ge (map score (results resp)).
Proof.
  destruct (query_index_results (C := Toy.caps) (of_string "hello") 3
              EMB_MODEL_NAME Toy.built tt
              {| d := 2; xb := [[11; 104]; [19; 103]] |}
              [{| source := of_string "a.txt"; chunk_idx := 0;
                  ctext := of_string "hello world" |};
               {| source := of_string "b.md"; chunk_idx := 0;
                  ctext := of_string "gamma delta epsilon" |}]
              [10871; 10807; -1000000] [0; 1; -1] Z.ge)
    as (resp & Hrun & _ & Hlen & Hsorted & _).
  - lia.
  - reflexivity.
  - vm_compute. reflexivity.
  - vm_compute. reflexivity.
  - reflexivity.
  - reflexivity.
  - repeat constructor; lia.
  - repeat constructor; simpl; lia.
  - exists resp. split; [exact Hrun|]. split; [exact Hlen | exact Hsorted].
Defined.

(** The results of that query: the two entries, best first, the
    placeholder dropped. *)
Example toy_query :
  option_map (fun resp => map (fun r => (score r, rsource r)) (results resp))
    (match query_index (C := Toy.caps) (of_string "hello") 3 EMB_MODEL_NAME
             Toy.built with
     | Returned resp => Some resp
     | Raised _ => None
     end)
  = Some [(10871, of_string "a.txt"); (10807, of_string "b.md")].
Proof. vm_compute. reflexivity. Qed.

Lemma load_index_no_count_check_witness :
  load_index (C := Toy.caps) Toy.fresh = Raised index_not_found /\
  exists ix meta,
    load_index (C := Toy.caps) Toy.mismatched = Returned (ix, meta) /\
    ntotal ix = 2%nat /\ length meta = 1%nat.
Proof.
  split.
  - apply (proj1 (load_index_no_count_check (C := Toy.caps) Toy.fresh)).
    left. reflexivity.
  - eexists. eexists. split.
    + apply (proj2 (load_index_no_count_check (C := Toy.caps) Toy.mismatched)
               _ _ _ _ eq_refl eq_refl eq_refl eq_refl).
    + split; reflexivity.
Defined.

(** C5, as stated, fails: the two artifacts of [Toy.mismatched] hold two
    vectors and one metadata record, and [load_index] returns them. *)
Lemma load_index_accepts_mismatch :
  exists ix meta,
    load_index (C := Toy.caps) Toy.mismatched = Returned (ix, meta) /\
    ntotal ix <> length meta.
Proof.
  eexists. eexists. split; [vm_compute; reflexivity|].
  vm_compute. discriminate.
Qed.

(** C3, as stated, fails: [load_index] returns the pair of
    [Toy.mismatched], two vectors and one metadata record; the query for
    [k = 2] on it finds entry 1 first, for which there is no record, and
    raises instead of returning results. *)
Lemma query_index_loaded_pair_raises :
  (exists ix meta,
     load_index (C := Toy.caps) Toy.mismatched = Returned (ix, meta)) /\
  query_index (C := Toy.caps) (of_string "hello") 2 EMB_MODEL_NAME
    Toy.mismatched
  = Raised (IndexError (of_string "list index out of range")).
Proof.
  split; [eexists; eexists|]; vm_compute; reflexivity.
Qed.

(** A query on that pair finds entry 1 first, for which there is no
    metadata record. *)
Example query_mismatched :
  query_index (C := Toy.caps) (of_string "hello") 2 EMB_MODEL_NAME Toy.mismatched
  = Raised (IndexError (of_string "list index out of range")).
Proof. vm_compute. reflexivity. Qed.

Lemma query_before_build_witness :
  load_index (C := Toy.caps) Toy.fresh = Raised index_not_found /\
  query_index (C := Toy.caps) (of_string "hello") 3 EMB_MODEL_NAME Toy.fresh
  = Raised index_not_found.
Proof.
  destruct (query_before_build (C := Toy.caps) Toy.fresh (or_introl eq_refl))
    as [Hload Hquery].
  split; [exact Hload|].
  exact (proj2 (Hquery (of_string "hello") 3 EMB_MODEL_NAME) tt eq_refl).
Defined.

(** When the embedding model can not be loaded, the query fails on that
    before it looks for the index. *)
Example query_without_model :
  query_index (C := Toy.caps_no_model) (of_string "hello") 3 EMB_MODEL_NAME
    {| docs_dir := None; index_file := None; meta_file := None |}
  = Raised (OSError (of_string "model not available")).
Proof. reflexivity. Qed.

(* ================================================================== *)
(** * Further properties of the program *)

(* ------------------------------------------------------------------ *)
(** ** Tokens and chunks *)

Lemma concat_split_from (s : str) :
  forall cur, concat (split_from cur s) = cur ++ filter nonspace s.
Proof.
  induction s as [|c s IH]; intros cur; simpl.
  - destruct cur; simpl; now rewrite ?app_nil_r.
  - unfold nonspace at 1. destruct (isspace c); simpl.
    + destruct cur; simpl; now rewrite IH.
    + now rewrite IH, <- app_assoc.
Qed.

(** X1.  Splitting loses and reorders nothing but whitespace: the tokens
    of a text, put end to end, are the characters of the text that are not
    whitespace, in their order. *)
Theorem split_keeps_nonspace (txt : str) :
  concat (split txt) = filter nonspace txt.
Proof. unfold split. now rewrite concat_split_from. Qed.

Lemma length_window {A : Type} (l : list A) (start size : nat) :
  length (window l start size) = Nat.min size (length l - start).
Proof. unfold window. now rewrite length_firstn, length_skipn. Qed.

(** The tokens of chunk [k] of a text. *)
Lemma windows_nth_tokens (txt : str) (chunk_size step : Z) (k : nat) (c : str) :
  nth_error (windows (split txt) chunk_size step) k = Some c ->
  (k < window_count (length (split txt)) step)%nat /\
  c = join space (window (split txt) (k * Z.to_nat step) (Z.to_nat chunk_size)) /\
  split c = window (split txt) (k * Z.to_nat step) (Z.to_nat chunk_size).
Proof.
  intros Hnth.
  assert (Hk : (k < window_count (length (split txt)) step)%nat).
  { rewrite <- (length_windows (split txt) chunk_size step).
    apply nth_error_Some. congruence. }
  unfold windows in Hnth. rewrite nth_error_map_seq in Hnth by exact Hk.
  injection Hnth as <-. repeat split; trivial.
  apply split_join, window_is_token, split_is_token.
Qed.

(** X2.  Under the precondition [0 < chunk_size], [overlap < chunk_size],
    chunk [k] has [chunk_size] tokens, or the tokens that are left from
    its start position on when they are fewer; it has at least one token
    and never more than [chunk_size].  Being joined from its tokens with
    single spaces, a chunk is unchanged by splitting and joining it
    again. *)
Theorem chunk_text_chunk_sizes (fuel : nat) (txt : str) (chunk_size overlap : Z)
  (Hsize : 0 < chunk_size) (Hov : overlap < chunk_size)
  (Hfuel : (length (split txt) < fuel)%nat) :
  exists chunks,
    chunk_text fuel txt chunk_size overlap = Some chunks /\
    forall k c, nth_error chunks k = Some c ->
      length (split c)
      = Nat.min (Z.to_nat chunk_size)
                (length (split txt) - k * Z.to_nat (chunk_size - overlap)) /\
      (0 < length (split c) <= Z.to_nat chunk_size)%nat /\
      join space (split c) = c.
Proof.
  exists (windows (split txt) chunk_size (chunk_size - overlap)).
  split; [now apply chunk_text_enough|].
  intros k c Hnth.
  destruct (windows_nth_tokens _ _ _ _ _ Hnth) as (Hk & Hc & Hsplit).
  pose proof (window_start_lt (length (split txt)) (chunk_size - overlap) k
                ltac:(lia) Hk) as Hlt.
  rewrite Hsplit, length_window.
  split; [reflexivity|]. split; [lia|].
  now rewrite <- Hc.
Qed.

Lemma chunk_text_chunk_sizes_witness :
  exists chunks,
    chunk_text 6 (of_string "a b c d e") 3 1 = Some chunks /\
    forall c, nth_error chunks 2 = Some c -> length (split c) = 1%nat.
Proof.
  destruct (chunk_text_chunk_sizes 6 (of_string "a b c d e") 3 1
              ltac:(lia) ltac:(lia) ltac:(vm_compute; lia))
    as (chunks & Hrun & Hall).
  exists chunks. split; [exact Hrun|].
  intros c Hc. exact (proj1 (Hall 2%nat c Hc)).
Defined.

(** X3.  Consecutive chunks share their overlap: what chunk [k] holds
    after its first [chunk_size - overlap] tokens is what chunk [k+1]
    starts with, on its first [overlap] tokens. *)
Theorem chunk_text_shared_overlap (fuel : nat) (txt : str)
  (chunk_size overlap : Z)
  (Hsize : 0 < chunk_size) (Hov : 0 <= overlap < chunk_size)
  (Hfuel : (length (split txt) < fuel)%nat) :
  exists chunks,
    chunk_text fuel txt chunk_size overlap = Some chunks /\
    forall k c c',
      nth_error chunks k = Some c -> nth_error chunks (S k) = Some c' ->
      skipn (Z.to_nat (chunk_size - overlap)) (split c)
      = firstn (Z.to_nat overlap) (split c').
Proof.
  exists (windows (split txt) chunk_size (chunk_size - overlap)).
  split; [apply chunk_text_enough; lia|].
  intros k c c' Hc Hc'.
  destruct (windows_nth_tokens _ _ _ _ _ Hc) as (_ & _ & ->).
  destruct (windows_nth_tokens _ _ _ _ _ Hc') as (_ & _ & ->).
  unfold window.
  set (step := Z.to_nat (chunk_size - overlap)).
  rewrite skipn_firstn_comm, skipn_skipn, firstn_firstn.
  replace (Z.to_nat chunk_size - step)%nat with (Z.to_nat overlap)
    by (unfold step; lia).
  replace (step + k * step)%nat with (S k * step)%nat by lia.
  f_equal. lia.
Qed.

Lemma chunk_text_shared_overlap_witness :
  exists chunks,
    chunk_text 8 (of_string "a b c d e f g") 4 2 = Some chunks /\
    forall c c',
      nth_error chunks 0 = Some c -> nth_error chunks 1 = Some c' ->
      skipn 2 (split c) = firstn 2 (split c').
Proof.
  destruct (chunk_text_shared_overlap 8 (of_string "a b c d e f g") 4 2
              ltac:(lia) ltac:(lia) ltac:(vm_compute; lia))
    as (chunks & Hrun & Hall).
  exists chunks. split; [exact Hrun|].
  intros c c'. exact (Hall 0%nat c c').
Defined.

Lemma concat_windows_partition {A : Type} (size n : nat) :
  forall l : list A,
    (length l <= n * size)%nat ->
    concat (map (fun k => window l (k * size) size) (seq 0 n)) = l.
Proof.
  induction n as [|n IH]; intros l Hlen.
  - simpl in *. now destruct l.
  - rewrite <- cons_seq, <- seq_shift, map_cons, map_map. cbn [concat].
    unfold window at 1. rewrite Nat.mul_0_l, skipn_0.
    transitivity (firstn size l ++ skipn size l); [|apply firstn_skipn].
    f_equal.
    rewrite <- (IH (skipn size l)) at 1 by (rewrite length_skipn; lia).
    f_equal. apply map_ext. intros k. unfold window.
    rewrite skipn_skipn. do 2 f_equal. lia.
Qed.

(** X4.  Without overlap the chunks cut the token list into consecutive
    pieces: the tokens of the chunks, one chunk after the other, are the
    tokens of the text. *)
Theorem chunk_text_partition (fuel : nat) (txt : str) (chunk_size : Z)
  (Hsize : 0 < chunk_size)
  (Hfuel : (length (split txt) < fuel)%nat) :
  exists chunks,
    chunk_text fuel txt chunk_size 0 = Some chunks /\
    flat_map split chunks = split txt.
Proof.
  exists (windows (split txt) chunk_size (chunk_size - 0)).
  split; [apply chunk_text_enough; lia|].
  rewrite flat_map_concat_map. unfold windows. rewrite map_map.
  rewrite Z.sub_0_r.
  destruct (window_count_bounds (length (split txt)) chunk_size Hsize)
    as (Hup & _ & _).
  rewrite <- (concat_windows_partition (Z.to_nat chunk_size)
                (window_count (length (split txt)) chunk_size) (split txt))
    at 2 by nia.
  f_equal. apply map_ext. intros k.
  apply split_join, window_is_token, split_is_token.
Qed.

Lemma chunk_text_partition_witness :
  exists chunks,
    chunk_text 6 (of_string "a b c d e") 2 0 = Some chunks /\
    flat_map split chunks = split (of_string "a b c d e").
Proof.
  exact (chunk_text_partition 6 (of_string "a b c d e") 2
           ltac:(lia) ltac:(vm_compute; lia)).
Defined.

(** X5.  A text of at most [chunk_size] tokens is not kept in one chunk
    when it has more than [chunk_size - overlap] tokens: chunk [k] then
    holds the tokens from position [k * (chunk_size - overlap)] to the
    end, so every chunk after the first repeats a tail of the first.
    Whatever the size of the text, there is exactly one chunk exactly when
    the text has between 1 and [chunk_size - overlap] tokens. *)
Theorem chunk_text_short_text (fuel : nat) (txt : str) (chunk_size overlap : Z)
  (Hov : 0 <= overlap < chunk_size)
  (Hfuel : (length (split txt) < fuel)%nat) :
  exists chunks,
    chunk_text fuel txt chunk_size overlap = Some chunks /\
    (length chunks = 1%nat <->
     (0 < length (split txt) <= Z.to_nat (chunk_size - overlap))%nat) /\
    ((length (split txt) <= Z.to_nat chunk_size)%nat ->
     forall k c, nth_error chunks k = Some c ->
       split c = skipn (k * Z.to_nat (chunk_size - overlap)) (split txt)).
Proof.
  exists (windows (split txt) chunk_size (chunk_size - overlap)).
  split; [apply chunk_text_enough; lia|].
  split.
  - rewrite length_windows.
    destruct (window_count_bounds (length (split txt)) (chunk_size - overlap)
                ltac:(lia)) as (Hup & Hlow & _).
    split; intros H; nia.
  - intros Hshort k c Hc.
    destruct (windows_nth_tokens _ _ _ _ _ Hc) as (_ & _ & ->).
    unfold window. apply firstn_all2. rewrite length_skipn. lia.
Qed.

Lemma chunk_text_short_text_witness :
  exists chunks,
    chunk_text 5 (of_string "a b c d") 5 3 = Some chunks /\
    length chunks <> 1%nat /\
    forall c, nth_error chunks 1 = Some c -> split c = split (of_string "c d").
Proof.
  destruct (chunk_text_short_text 5 (of_string "a b c d") 5 3
              ltac:(lia) ltac:(vm_compute; lia))
    as (chunks & Hrun & Hone & Hsuffix).
  exists chunks. split; [exact Hrun|]. split.
  - intros H. apply Hone in H. vm_compute in H. lia.
  - intros c Hc. exact (Hsuffix ltac:(vm_compute; lia) 1%nat c Hc).
Defined.

(** X6.  Which tokens reach a chunk: under [0 < chunk_size] and
    [overlap < chunk_size], with [step = chunk_size - overlap], the token
    at position [p] is in some chunk exactly when [p mod step] is below
    [chunk_size].  With an overlap that is not negative this is every
    token; a negative overlap is accepted and silently drops the tokens
    that fall between two windows. *)
Theorem chunk_text_covered_iff (fuel : nat) (txt : str) (chunk_size overlap : Z)
  (Hsize : 0 < chunk_size) (Hov : overlap < chunk_size)
  (Hfuel : (length (split txt) < fuel)%nat) :
  exists chunks,
    chunk_text fuel txt chunk_size overlap = Some chunks /\
    forall p, (p < length (split txt))%nat ->
      ((exists k c, nth_error chunks k = Some c /\
          (k * Z.to_nat (chunk_size - overlap) <= p
           < k * Z.to_nat (chunk_size - overlap) + length (split c))%nat)
       <-> (p mod Z.to_nat (chunk_size - overlap) < Z.to_nat chunk_size)%nat).
Proof.
  exists (windows (split txt) chunk_size (chunk_size - overlap)).
  split; [now apply chunk_text_enough|].
  intros p Hp.
  set (step := Z.to_nat (chunk_size - overlap)).
  assert (Hstep : (0 < step)%nat) by (unfold step; lia).
  pose proof (Nat.div_mod_eq p step) as Hdm.
  pose proof (Nat.mod_upper_bound p step ltac:(lia)) as Hmod.
  split.
  - intros (k & c & Hc & Hin).
    destruct (windows_nth_tokens _ _ _ _ _ Hc) as (_ & _ & Hsplit).
    rewrite Hsplit, length_window in Hin. fold step in Hin.
    assert (Hk : (k <= p / step)%nat) by (apply Nat.div_le_lower_bound; lia).
    nia.
  - intros Hlt.
    destruct (window_count_bounds (length (split txt)) (chunk_size - overlap)
                ltac:(lia)) as (Hup & _ & _).
    assert (Hk : (p / step < window_count (length (split txt))
                                 (chunk_size - overlap))%nat)
      by (unfold step in *; nia).
    exists (p / step)%nat, (join space (window (split txt) (p / step * step)
                                          (Z.to_nat chunk_size))).
    split; [unfold windows; now rewrite nth_error_map_seq|].
    rewrite split_join by (apply window_is_token, split_is_token).
    rewrite length_window. lia.
Qed.

Lemma chunk_text_covered_iff_witness :
  exists chunks,
    chunk_text 6 (of_string "a b c d e") 1 (-1) = Some chunks /\
    ~ (exists k c, nth_error chunks k = Some c /\
         (k * 2 <= 1 < k * 2 + length (split c))%nat).
Proof.
  destruct (chunk_text_covered_iff 6 (of_string "a b c d e") 1 (-1)
              ltac:(lia) ltac:(lia) ltac:(vm_compute; lia))
    as (chunks & Hrun & Hall).
  exists chunks. split; [exact Hrun|].
  intros H. apply (Hall 1%nat ltac:(vm_compute; lia)) in H.
  vm_compute in H. lia.
Defined.

(* ------------------------------------------------------------------ *)
(** ** The documents read *)

Lemma str_eqb_eq (a : str) : forall b, str_eqb a b = true -> a = b.
Proof.
  induction a as [|x a IH]; intros [|y b] H; simpl in H;
    try discriminate; [reflexivity|].
  apply andb_prop in H. destruct H as [Hxy Hab].
  apply N.eqb_eq in Hxy. subst y. f_equal. now apply IH.
Qed.

Lemma endswith_last (name suffix : str) (c : char) :
  endswith name (suffix ++ [c]) = true -> last name 0%N = c.
Proof.
  unfold endswith. intros H. apply andb_prop in H. destruct H as [_ H].
  apply str_eqb_eq in H.
  rewrite <- (firstn_skipn (length name - length (suffix ++ [c])) name), H.
  now rewrite app_assoc, last_last.
Qed.

(** No entry is matched by both patterns. *)
Lemma glob_match_disjoint (name : str) :
  glob_match (of_string ".txt") name = true ->
  glob_match (of_string ".md") name = false.
Proof.
  unfold glob_match. destruct name as [|c name]; [discriminate|].
  intros H. apply andb_prop in H. destruct H as [Hdot Htxt]. rewrite Hdot.
  destruct (endswith (c :: name) (of_string ".md")) eqn:Hmd; [|reflexivity].
  apply (endswith_last _ (of_string ".tx") 116%N) in Htxt.
  apply (endswith_last _ (of_string ".m") 100%N) in Hmd.
  rewrite Htxt in Hmd. discriminate.
Qed.

Lemma filter_orb_permutation {A : Type} (p q : A -> bool) (l : list A) :
  (forall x, p x = true -> q x = false) ->
  Permutation (filter p l ++ filter q l) (filter (fun x => p x || q x) l).
Proof.
  intros Hpq. induction l as [|x l IH]; simpl; [constructor|].
  destruct (p x) eqn:Hp; simpl.
  - rewrite (Hpq x Hp). now constructor.
  - destruct (q x); [|exact IH].
    symmetry. apply Permutation_cons_app. now symmetry.
Qed.

Example glob_dirname_cases :
  glob_dirname (of_string "/srv/rag/docs") = of_string "/srv/rag/docs" /\
  glob_dirname (of_string "docs//") = of_string "docs" /\
  glob_dirname (of_string "//") = of_string "//" /\
  glob_dirname (of_string "") = of_string "" /\
  has_magic (of_string "/srv/rag/d[1]") = true.
Proof. repeat split. Qed.

Lemma has_magic_app (a b : str) :
  has_magic (a ++ b) = has_magic a || has_magic b.
Proof. apply existsb_app. Qed.

(** The documents directory of the program holds no pattern character,
    as the directory of the program file holds none. *)
Lemma DOCS_DIR_plain {C : Capabilities} : has_magic DOCS_DIR = false.
Proof.
  unfold DOCS_DIR, path_join. pose proof BASE_DIR_plain as Hb. simpl.
  destruct BASE_DIR as [|c b]; [reflexivity|].
  destruct (N.eqb (last (c :: b) 0%N) slash).
  - now rewrite has_magic_app, Hb.
  - now rewrite has_magic_app, Hb.
Qed.

(** X7.  For a directory whose path holds no pattern character of [glob]
    (as the documents directory of the program), [load_text_files] reads
    every eligible entry of the directory once and nothing else: its
    documents are, up to their order, the documents of the entries that
    are not hidden and end in [.txt] or [.md], one for each. *)
Theorem load_text_files_eligible (doc_dir : str) (listing : list file)
  (Hplain : has_magic doc_dir = false) :
  Permutation (load_text_files doc_dir listing)
              (map (document_of doc_dir) (filter eligible listing)) /\
  length (load_text_files doc_dir listing) = length (filter eligible listing).
Proof.
  assert (Hperm : Permutation (load_text_files doc_dir listing)
                    (map (document_of doc_dir) (filter eligible listing))).
  { unfold load_text_files, glob_read. rewrite <- map_app.
    apply Permutation_map.
    apply (filter_orb_permutation
             (fun f => glob_match (of_string ".txt") (fname f))
             (fun f => glob_match (of_string ".md") (fname f))).
    intros f. apply glob_match_disjoint. }
  split; [exact Hperm|].
  rewrite (Permutation_length Hperm). apply length_map.
Qed.

Lemma load_text_files_eligible_witness :
  Permutation
    (load_text_files (of_string "/srv/rag/docs")
       [Toy.mkfile "b.md" "gamma"; Toy.mkfile ".x.txt" "hidden";
        Toy.mkfile "a.txt" "hello"])
    [document_of (of_string "/srv/rag/docs") (Toy.mkfile "b.md" "gamma");
     document_of (of_string "/srv/rag/docs") (Toy.mkfile "a.txt" "hello")].
Proof.
  exact (proj1 (load_text_files_eligible (of_string "/srv/rag/docs")
                  [Toy.mkfile "b.md" "gamma"; Toy.mkfile ".x.txt" "hidden";
                   Toy.mkfile "a.txt" "hello"] eq_refl)).
Defined.



(* ------------------------------------------------------------------ *)
(** ** More on the build *)

Section BuildMore.

Context {C : Capabilities}.

(** X9.  A build reads nothing but the documents directory and replaces
    both artifacts: when it returns on a store, it returns the same report
    and leaves the same store on every store with the same documents
    directory, whatever artifacts that store held.  In particular building
    again on the store a build has left changes nothing. *)
Theorem build_index_replaces (fuel : nat) (name : str) (st st2 st' : store)
  (info : build_info)
  (Hdocs : docs_dir st2 = docs_dir st)
  (Hrun : build_index fuel name st = Some (Returned info, st')) :
  build_index fuel name st2 = Some (Returned info, st') /\
  build_index fuel name st' = Some (Returned info, st').
Proof.
  assert (Hgen : forall st3, docs_dir st3 = docs_dir st ->
                   build_index fuel name st3 = Some (Returned info, st')).
  { intros st3 H3. unfold build_index in *. rewrite H3.
    destruct (SentenceTransformer name) as [m|e]; [|inversion Hrun].
    destruct (docs_dir st) as [listing|] eqn:Hd; [|inversion Hrun].
    destruct (build_docs fuel m _ [] []) as [[meta embeddings]|];
      [|discriminate].
    destruct embeddings as [|emb embs]; [inversion Hrun|].
    destruct (vstack (emb :: embs)) as [xb0|e]; [|inversion Hrun].
    injection Hrun as <- <-. unfold put_meta, put_index.
    cbn [docs_dir index_file meta_file]. now rewrite H3, Hd. }
  split; [now apply Hgen|].
  apply Hgen.
  destruct (build_index_returned _ _ _ _ _ Hrun)
    as (m & listing & _ & _ & _ & Hst & _).
  rewrite Hst. reflexivity.
Qed.

(** X10.  The number of vectors a build reports is the number of chunks
    of the corpus: for each document read, its token count divided by 250
    and rounded up. *)
Theorem build_index_vector_count (fuel : nat) (name : str) (st st' : store)
  (info : build_info)
  (Hrun : build_index fuel name st = Some (Returned info, st')) :
  exists listing,
    docs_dir st = Some listing /\
    vectors info
    = list_sum (map (fun doc => window_count (length (split (text doc))) 250)
                    (load_text_files DOCS_DIR listing)).
Proof.
  destruct (build_index_returned _ _ _ _ _ Hrun)
    as (m & listing & _ & Hd & _ & _ & Hvec & _).
  exists listing. split; [exact Hd|]. rewrite Hvec.
  unfold corpus_entries. rewrite length_flat_map. f_equal.
  apply map_ext. intros doc. unfold doc_entries.
  now rewrite length_map, length_seq, length_windows.
Qed.

(** X11.  When two chunks of the corpus get embeddings of different
    lengths, the build raises and leaves the store as it was. *)
Theorem build_index_dimension_mismatch (fuel : nat) (name : str) (st : store)
  (m : model) (listing : list file) (e1 e2 : entry)
  (Hm : SentenceTransformer name = Returned m)
  (Hd : docs_dir st = Some listing)
  (H1 : In e1 (corpus_entries (load_text_files DOCS_DIR listing)))
  (H2 : In e2 (corpus_entries (load_text_files DOCS_DIR listing)))
  (Hne : length (encode m (e_chunk e1)) <> length (encode m (e_chunk e2)))
  (Hfuel : (build_fuel st <= fuel)%nat) :
  exists e, build_index fuel name st = Some (Raised e, st).
Proof.
  destruct (build_index_total fuel name st Hfuel) as ([info|e] & st' & Hrun).
  - exfalso.
    destruct (build_index_returned _ _ _ _ _ Hrun)
      as (m' & listing' & Hm' & Hd' & _ & _ & _ & Hdim).
    rewrite Hm in Hm'. injection Hm' as <-.
    rewrite Hd in Hd'. injection Hd' as <-.
    rewrite Forall_forall in Hdim.
    apply Hne. now rewrite (Hdim e1 H1), (Hdim e2 H2).
  - exists e. now rewrite (build_index_raised _ _ _ _ _ Hrun) in Hrun.
Qed.

End BuildMore.

Lemma build_index_replaces_witness :
  build_index (C := Toy.caps) 4 EMB_MODEL_NAME Toy.built
  = Some (Returned {| vectors := 2; dim := 2 |}, Toy.built).
Proof.
  exact (proj1 (build_index_replaces (C := Toy.caps) 4 EMB_MODEL_NAME
                  Toy.fresh Toy.built Toy.built _ eq_refl toy_build)).
Defined.

Lemma build_index_vector_count_witness :
  exists listing,
    docs_dir Toy.long_doc = Some listing /\
    2%nat = list_sum (map (fun doc => window_count (length (split (text doc))) 250)
                          (load_text_files (DOCS_DIR (C := Toy.caps)) listing)).
Proof.
  exact (build_index_vector_count (C := Toy.caps) _ _ _ _ _ toy_build_long).
Defined.

Lemma build_index_dimension_mismatch_witness :
  exists e,
    build_index (C := caps_ragged) 4 EMB_MODEL_NAME fresh_ragged
    = Some (Raised e, fresh_ragged).
Proof.
  apply (build_index_dimension_mismatch (C := caps_ragged) 4 EMB_MODEL_NAME
           fresh_ragged tt _
           {| e_doc := document_of (DOCS_DIR (C := caps_ragged))
                         (Toy.mkfile "a.txt" "hello world");
              e_idx := 0; e_chunk := of_string "hello world" |}
           {| e_doc := document_of (DOCS_DIR (C := caps_ragged))
                         (Toy.mkfile "b.md" "gamma delta epsilon");
              e_idx := 0; e_chunk := of_string "gamma delta epsilon" |}
           eq_refl eq_refl).
  - vm_compute. left. reflexivity.
  - vm_compute. right. left. reflexivity.
  - vm_compute. lia.
  - vm_compute. lia.
Defined.

(* ------------------------------------------------------------------ *)
(** ** More on the query *)

Section QueryMore.

Context {C : Capabilities}.

Lemma query_loop_out_of_range_somewhere (meta : list chunk_meta)
  (hits : list (float32 * Z)) :
  Exists (fun hit => Z.of_nat (length meta) <= snd hit) hits ->
  forall acc,
    query_loop meta hits acc
    = Raised (IndexError (of_string "list index out of range")).
Proof.
  induction hits as [|[sc idx] hits IH]; intros Hex acc.
  - inversion Hex.
  - cbn [query_loop].
    destruct (Z.ltb_spec idx 0) as [Hneg | Hpos].
    + apply IH. inversion Hex as [? ? Hhd | ? ? Htl]; [simpl in Hhd; lia|].
      exact Htl.
    + destruct (nth_error meta (Z.to_nat idx)) as [r|] eqn:Hnth;
        [|reflexivity].
      apply IH. inversion Hex as [? ? Hhd | ? ? Htl]; [|exact Htl].
      simpl in Hhd.
      assert (Hsome : nth_error meta (Z.to_nat idx) <> None) by congruence.
      apply nth_error_Some in Hsome. lia.
Qed.

(** The run of a query whose hits all have a metadata record. *)
Lemma query_index_run (q : str) (k : Z) (name : str) (st : store)
  (m : model) (ix : faiss_index float32) (meta : list chunk_meta)
  (dists : list float32) (ids : list Z) :
  SentenceTransformer name = Returned m ->
  load_index st = Returned (ix, meta) ->
  search ix (normalize_L2 (encode m q)) k = Returned (dists, ids) ->
  Forall (fun idx => idx < Z.of_nat (length meta)) ids ->
  exists rs,
    query_index q k name st
    = Returned {| query := q; lang := safe_detect_lang q; results := rs |} /\
    Forall2 (joined meta) (filter kept (combine dists ids)) rs.
Proof.
  intros Hm Hload Hsearch Hrange.
  assert (Hhits : Forall (fun hit : float32 * Z =>
                            snd hit < Z.of_nat (length meta))
                         (combine dists ids)).
  { rewrite Forall_forall in *. intros [sc idx] Hin.
    apply in_combine_r in Hin. now apply Hrange. }
  destruct (query_loop_spec meta (combine dists ids) Hhits [])
    as (rs & Hrun & Hrs).
  exists rs. split; [|exact Hrs].
  unfold query_index. rewrite Hm. cbn [bind]. rewrite Hload. cbn [bind].
  rewrite Hsearch. cbn [bind]. now rewrite Hrun.
Qed.

(** X12.  When the engine answers with a label for which there is no
    metadata record (an index with more vectors than the metadata holds
    records), the query raises [IndexError]: it returns no partial list of
    results. *)
Theorem query_index_label_out_of_range (q : str) (k : Z) (name : str)
  (st : store) (m : model) (ix : faiss_index float32)
  (meta : list chunk_meta) (dists : list float32) (ids : list Z)
  (Hm : SentenceTransformer name = Returned m)
  (Hload : load_index st = Returned (ix, meta))
  (Hsearch : search ix (normalize_L2 (encode m q)) k = Returned (dists, ids))
  (Hbad : Exists (fun hit => Z.of_nat (length meta) <= snd hit)
                 (combine dists ids)) :
  query_index q k name st
  = Raised (IndexError (of_string "list index out of range")).
Proof.
  unfold query_index. rewrite Hm. cbn [bind]. rewrite Hload. cbn [bind].
  rewrite Hsearch. cbn [bind].
  now rewrite query_loop_out_of_range_somewhere.
Qed.

(** X13.  The language of a response is the detector's answer, and
    ["unknown"] when the detector raises: a failure of the detector never
    makes a query fail. *)
Theorem query_index_lang (q : str) (k : Z) (name : str) (st : store)
  (m : model) (ix : faiss_index float32) (meta : list chunk_meta)
  (dists : list float32) (ids : list Z)
  (Hm : SentenceTransformer name = Returned m)
  (Hload : load_index st = Returned (ix, meta))
  (Hsearch : search ix (normalize_L2 (encode m q)) k = Returned (dists, ids))
  (Hrange : Forall (fun idx => idx < Z.of_nat (length meta)) ids) :
  exists resp,
    query_index q k name st = Returned resp /\
    (forall l, detect q = Returned l -> lang resp = l) /\
    (forall e, detect q = Raised e -> lang resp = of_string "unknown").
Proof.
  destruct (query_index_run q k name st m ix meta dists ids
              Hm Hload Hsearch Hrange) as (rs & Hrun & _).
  eexists. split; [exact Hrun|]. cbn [lang]. unfold safe_detect_lang.
  split; intros x Hx; now rewrite Hx.
Qed.

Lemma Forall2_right {A B : Type} (R : A -> B -> Prop) (l : list A)
  (l' : list B) :
  Forall2 R l l' -> Forall (fun b => exists a, In a l /\ R a b) l'.
Proof.
  induction 1 as [|a b l l' Hab _ IH]; constructor.
  - exists a. split; [now left | exact Hab].
  - revert IH. apply Forall_impl. intros b' (a' & Hin & HR).
    exists a'. split; [now right | exact HR].
Qed.

(** X14.  Build, then query, for [k > 0].  Provided the two serialisers
    give back what they were given and the engine answers this search
    with labels below the number of vectors, a query on the store a build
    has left returns, and every result is a chunk of the corpus: its
    source is the base name of the chunk's document, its chunk index the
    ordinal of the chunk in that document, and its text the first 600
    characters of the chunk, so at most 600 characters. *)
Theorem build_then_query (fuel : nat) (name : str) (st st' : store)
  (info : build_info) (q : str) (k : Z)
  (Hk : 0 < k)
  (Hidx : forall ix, read_index (write_index ix) = Returned ix)
  (Hmeta : forall meta, pickle_load (pickle_dump meta) = Returned meta)
  (Hrun : build_index fuel name st = Some (Returned info, st'))
  (Hengine : forall ix meta m,
     load_index st' = Returned (ix, meta) ->
     SentenceTransformer name = Returned m ->
     0 < k ->
     exists dists ids,
       search ix (normalize_L2 (encode m q)) k = Returned (dists, ids) /\
       Forall (fun idx => idx < Z.of_nat (ntotal ix)) ids) :
  exists listing resp,
    docs_dir st = Some listing /\
    query_index q k name st' = Returned resp /\
    Forall (fun r =>
              (length (rtext r) <= 600)%nat /\
              exists e,
                In e (corpus_entries (load_text_files DOCS_DIR listing)) /\
                rsource r = basename (path (e_doc e)) /\
                rchunk_idx r = e_idx e /\
                rtext r = firstn 600 (e_chunk e))
           (results resp).
Proof.
  destruct (build_index_returned _ _ _ _ _ Hrun)
    as (m & listing & Hm & Hd & Hne & Hst & Hvec & _).
  set (ents := corpus_entries (load_text_files DOCS_DIR listing)) in *.
  set (ix := {| d := dim info; xb := map (entry_vector m) ents |}) in *.
  assert (Hload : load_index st' = Returned (ix, map entry_meta ents)).
  { rewrite Hst. unfold load_index. cbn [index_file meta_file].
    rewrite Hidx. cbn [bind]. now rewrite Hmeta. }
  destruct (Hengine ix _ m Hload Hm Hk) as (dists & ids & Hs & Hlab).
  unfold ntotal, ix in Hlab. cbn [xb] in Hlab.
  rewrite length_map in Hlab.
  destruct (query_index_run q k name st' m ix (map entry_meta ents) dists ids
              Hm Hload Hs) as (rs & Hq & Hrs).
  { now rewrite length_map. }
  exists listing. eexists. split; [exact Hd|]. split; [exact Hq|].
  cbn [results]. apply Forall2_right in Hrs.
  revert Hrs. apply Forall_impl. intros r (hit & _ & _ & _ & Hnth).
  apply nth_error_In, in_map_iff in Hnth.
  destruct Hnth as (e & He & Hin).
  pose proof (f_equal source He) as Hsrc.
  pose proof (f_equal chunk_idx He) as Hidx'.
  pose proof (f_equal ctext He) as Htxt.
  cbn [source chunk_idx ctext entry_meta] in Hsrc, Hidx', Htxt.
  split.
  - rewrite <- Htxt. rewrite length_firstn. lia.
  - exists e. repeat split; auto.
Qed.

End QueryMore.

Lemma query_index_label_out_of_range_witness :
  query_index (C := Toy.caps) (of_string "hello") 2 EMB_MODEL_NAME Toy.mismatched
  = Raised (IndexError (of_string "list index out of range")).
Proof.
  apply (query_index_label_out_of_range (C := Toy.caps) (of_string "hello") 2
           EMB_MODEL_NAME Toy.mismatched tt
           {| d := 2; xb := [[1; 0]; [0; 1]] |}
           [{| source := of_string "a.txt"; chunk_idx := 0;
               ctext := of_string "hello world" |}]
           [104; 5] [1; 0] eq_refl eq_refl eq_refl).
  constructor. simpl. lia.
Defined.

Lemma query_index_lang_witness :
  exists resp,
    query_index (C := Toy.caps) (of_string "hello") 3 EMB_MODEL_NAME Toy.built
    = Returned resp /\
    lang resp = of_string "unknown".
Proof.
  destruct (query_index_lang (C := Toy.caps) (of_string "hello") 3
              EMB_MODEL_NAME Toy.built tt
              {| d := 2; xb := [[11; 104]; [19; 103]] |}
              [{| source := of_string "a.txt"; chunk_idx := 0;
                  ctext := of_string "hello world" |};
               {| source := of_string "b.md"; chunk_idx := 0;
                  ctext := of_string "gamma delta epsilon" |}]
              [10871; 10807; -1000000] [0; 1; -1]
              eq_refl ltac:(vm_compute; reflexivity)
              ltac:(vm_compute; reflexivity)
              ltac:(repeat constructor; simpl; lia))
    as (resp & Hrun & _ & Hunknown).
  exists resp. split; [exact Hrun|].
  exact (Hunknown _ eq_refl).
Defined.

Lemma build_then_query_witness :
  exists resp,
    query_index (C := Toy.caps) (of_string "hello") 3 EMB_MODEL_NAME Toy.built
    = Returned resp /\
    Forall (fun r => (length (rtext r) <= 600)%nat) (results resp).
Proof.
  destruct (build_then_query (C := Toy.caps) 4 EMB_MODEL_NAME Toy.fresh
              Toy.built _ (of_string "hello") 3 ltac:(lia)
              (fun ix => eq_refl) (fun meta => eq_refl) toy_build)
    as (listing & resp & _ & Hrun & Hall).
  - intros ix meta m Hload _ _. vm_compute in Hload.
    injection Hload as <- <-. eexists. eexists.
    split; [vm_compute; reflexivity|].
    vm_compute. repeat constructor; discriminate.
  - exists resp. split; [exact Hrun|].
    revert Hall. apply Forall_impl. intros r [Hlen _]. exact Hlen.
Defined.

(* ------------------------------------------------------------------ *)
(** ** Answer synthesis *)

Lemma lstrip_hd (s : str) (c : char) :
  hd_error (lstrip s) = Some c -> isspace c = false.
Proof.
  induction s as [|x s IH]; simpl; [discriminate|].
  destruct (isspace x) eqn:Hx; [exact IH|].
  simpl. intros H. injection H as <-. exact Hx.
Qed.

Lemma lstrip_snoc (u : str) (c : char) :
  isspace c = false -> exists v, lstrip (u ++ [c]) = v ++ [c].
Proof.
  intros Hc. induction u as [|x u IH]; simpl.
  - rewrite Hc. now exists [].
  - destruct (isspace x); [exact IH|]. now exists (x :: u).
Qed.

Lemma strip_trimmed (s : str) : trimmed (strip s).
Proof.
  unfold trimmed, strip, rstrip. split.
  - destruct (lstrip s) as [|c t] eqn:Ht; [discriminate|].
    assert (Hc : isspace c = false) by (apply (lstrip_hd s); now rewrite Ht).
    simpl rev at 2. destruct (lstrip_snoc (rev t) c Hc) as (v & ->).
    rewrite rev_app_distr. simpl. intros x Hx. now injection Hx as <-.
  - rewrite rev_involutive. apply lstrip_hd.
Qed.

Lemma not_configured_trimmed : trimmed not_configured.
Proof.
  split; intros c Hc; vm_compute in Hc; injection Hc as <-; reflexivity.
Qed.

(** X15.  [synthesize_answer] answers with the fixed sentence of the
    unconfigured case whenever the chat library is missing or the key is
    not in the environment, whatever the capability would say; and every
    answer it returns is trimmed: it neither starts nor ends with
    whitespace. *)
Theorem synthesize_answer_trimmed {F : Type} {A : Assistant}
  (environ : environment) (q : str) (chunks : list (result F))
  (max_tokens : Z) :
  (OPENAI_AVAILABLE = false
   \/ environ_get environ (of_string "OPENAI_API_KEY") = None ->
   synthesize_answer environ q chunks max_tokens = Returned not_configured) /\
  (forall a, synthesize_answer environ q chunks max_tokens = Returned a ->
             trimmed a).
Proof.
  unfold synthesize_answer. split.
  - intros [-> | Hkey]; [reflexivity|].
    rewrite Hkey. now destruct OPENAI_AVAILABLE.
  - intros a.
    destruct (if OPENAI_AVAILABLE then _ else None) as [key|].
    + destruct (ChatCompletion_create key _ _ max_tokens) as [choices|e];
        cbn [bind]; [|discriminate].
      destruct choices as [|content rest]; [discriminate|].
      intros Ha. injection Ha as <-. apply strip_trimmed.
    + intros Ha. injection Ha as <-. apply not_configured_trimmed.
Qed.

Lemma synthesize_answer_trimmed_witness :
  synthesize_answer (F := Z) (A := toy_assistant) [] (of_string "hello") [] 200
  = Returned not_configured /\
  trimmed (of_string "The answer [a.txt|chunk 0].").
Proof.
  split.
  - apply (proj1 (synthesize_answer_trimmed (F := Z) (A := toy_assistant)
                    [] (of_string "hello") [] 200)).
    right. reflexivity.
  - apply (proj2 (synthesize_answer_trimmed (F := Z) (A := toy_assistant)
                    [(of_string "OPENAI_API_KEY", of_string "sk-test")]
                    (of_string "hello") [] 200)).
    vm_compute. reflexivity.
Defined.

(* ------------------------------------------------------------------ *)
(** ** The routes and the command line *)

Section BuildErrors.

Context {C : Capabilities}.

(** The errors a build raises before it writes: the model that does not
    load, the documents directory that is missing, the corpus without
    chunk, the embeddings that do not stack.  In each case the store is
    left as it was. *)
Lemma build_index_error_cases (fuel : nat) (name : str) (st : store) :
  (forall e, SentenceTransformer name = Raised e ->
     build_index fuel name st = Some (Raised e, st)) /\
  (forall m, SentenceTransformer name = Returned m ->
     docs_dir st = None ->
     build_index fuel name st = Some (Raised docs_not_found, st)) /\
  (forall m listing,
     SentenceTransformer name = Returned m ->
     docs_dir st = Some listing ->
     (build_fuel st <= fuel)%nat ->
     corpus_entries (load_text_files DOCS_DIR listing) = [] ->
     build_index fuel name st = Some (Raised no_chunks, st)) /\
  (forall m listing e,
     SentenceTransformer name = Returned m ->
     docs_dir st = Some listing ->
     (build_fuel st <= fuel)%nat ->
     corpus_entries (load_text_files DOCS_DIR listing) <> [] ->
     vstack (map (fun en => encode m (e_chunk en))
                 (corpus_entries (load_text_files DOCS_DIR listing)))
     = Raised e ->
     build_index fuel name st = Some (Raised e, st)).
Proof.
  unfold build_index, build_fuel. repeat split.
  - intros e ->. reflexivity.
  - intros m -> ->. reflexivity.
  - intros m listing -> -> Hfuel Hnone.
    destruct (build_docs_enough fuel m _ Hfuel [] []) as (r & Hr).
    rewrite Hr. apply build_docs_some in Hr. rewrite Hnone in Hr.
    subst r. reflexivity.
  - intros m listing e -> -> Hfuel Hsome Hstack.
    destruct (build_docs_enough fuel m _ Hfuel [] []) as (r & Hr).
    rewrite Hr. apply build_docs_some in Hr. subst r. cbn [app].
    destruct (map _ (corpus_entries _)) as [|emb embs] eqn:Hemb.
    + apply map_eq_nil in Hemb. contradiction.
    + now rewrite Hstack.
Qed.

End BuildErrors.

Section EntryPointFacts.

Context {C : Capabilities} {H : Host}.

(** X16.  The rebuild route answers a build that returns with status 200
    and the counts of the build, both artifacts written.  It catches the
    errors the build raises before it writes anything (the model that
    does not load, the missing documents directory, the corpus without
    chunk, the embeddings of unequal length) and answers each with status
    500 and the message of the error, the store as it was. *)
Theorem route_rebuild_answers (fuel : nat) (t0 t1 : clock) (st : store) :
  (forall info st',
     build_index fuel EMB_MODEL_NAME st = Some (Returned info, st') ->
     route_rebuild fuel t0 t1 st
     = Some ((RebuildOk (vectors info) (dim info) (round_elapsed t0 t1), 200),
             st') /\
     index_file st' <> None /\ meta_file st' <> None) /\
  (forall e, SentenceTransformer EMB_MODEL_NAME = Raised e ->
     route_rebuild fuel t0 t1 st = Some ((Failed (exn_message e), 500), st)) /\
  (forall m, SentenceTransformer EMB_MODEL_NAME = Returned m ->
     docs_dir st = None ->
     route_rebuild fuel t0 t1 st
     = Some ((Failed (of_string "Docs folder not found: " ++ DOCS_DIR), 500),
             st)) /\
  (forall m listing,
     SentenceTransformer EMB_MODEL_NAME = Returned m ->
     docs_dir st = Some listing ->
     (build_fuel st <= fuel)%nat ->
     corpus_entries (load_text_files DOCS_DIR listing) = [] ->
     route_rebuild fuel t0 t1 st
     = Some ((Failed (of_string
                "No text chunks found in docs. Add .txt or .md files to ./docs"),
              500), st)) /\
  (forall m listing e,
     SentenceTransformer EMB_MODEL_NAME = Returned m ->
     docs_dir st = Some listing ->
     (build_fuel st <= fuel)%nat ->
     corpus_entries (load_text_files DOCS_DIR listing) <> [] ->
     vstack (map (fun en => encode m (e_chunk en))
                 (corpus_entries (load_text_files DOCS_DIR listing)))
     = Raised e ->
     route_rebuild fuel t0 t1 st = Some ((Failed (exn_message e), 500), st)).
Proof.
  destruct (build_index_error_cases fuel EMB_MODEL_NAME st)
    as (Hmodel & Hdocs & Hnone & Hstack).
  unfold route_rebuild. split; [|split; [|split; [|split]]].
  - intros info st' Hrun. rewrite Hrun. split; [reflexivity|].
    destruct (build_index_returned _ _ _ _ _ Hrun)
      as (m & listing & _ & _ & _ & -> & _).
    split; discriminate.
  - intros e He. now rewrite (Hmodel e He).
  - intros m Hm Hd. now rewrite (Hdocs m Hm Hd).
  - intros m listing Hm Hd Hfuel Hn. now rewrite (Hnone m listing Hm Hd Hfuel Hn).
  - intros m listing e Hm Hd Hfuel Hs Hv.
    now rewrite (Hstack m listing e Hm Hd Hfuel Hs Hv).
Qed.

(** X17.  A body without query, or with an empty one, is answered with
    status 400 whatever the store and the capabilities: neither the model
    nor the index is looked at.  A query that is not empty, sent while an
    artifact is missing, is answered with status 500 and the message of
    the missing index, provided the embedding model loads. *)
Theorem route_query_before_build (t0 t1 : clock) (st : store) :
  (forall body,
     match body with
     | Some b => b_query b = None \/ b_query b = Some []
     | None => True
     end ->
     route_query body t0 t1 st = (Failed (of_string "query required"), 400)) /\
  (forall c q k m,
     SentenceTransformer EMB_MODEL_NAME = Returned m ->
     index_file st = None \/ meta_file st = None ->
     route_query (Some {| b_query := Some (c :: q); b_k := k |}) t0 t1 st
     = (Failed (of_string "Index or meta not found. Run rebuild first."),
        500)).
Proof.
  split.
  - intros [[bq bk]|] Hq; [|reflexivity]. unfold route_query.
    cbn [b_query b_k] in *. now destruct Hq as [-> | ->].
  - intros c q k m Hm Hmiss.
    assert (Hload : load_index st = Raised index_not_found).
    { unfold load_index. destruct Hmiss as [-> | ->]; [reflexivity|].
      now destruct (index_file st). }
    unfold route_query. cbn [b_query b_k].
    unfold query_index. rewrite Hm. cbn [bind]. rewrite Hload. reflexivity.
Qed.

(** X18.  Rebuild, then query, through the routes, for [k > 0] ([k] is 3
    when the body gives none).  Provided the two serialisers give back
    what they were given and the engine answers the search with labels
    below the number of vectors, a query that is not empty, sent after a
    rebuild that answered 200, is answered with status 200, the query
    itself and as many results as the engine gave hits whose label is not
    negative. *)
Theorem route_rebuild_then_query (fuel : nat) (t0 t1 t2 t3 : clock)
  (st st' : store) (r : reply) (c : char) (q : str) (k : option Z)
  (Hk : 0 < match k with Some k' => k' | None => 3 end)
  (Hidx : forall ix, read_index (write_index ix) = Returned ix)
  (Hmeta : forall meta, pickle_load (pickle_dump meta) = Returned meta)
  (Hrebuild : route_rebuild fuel t0 t1 st = Some ((r, 200), st'))
  (Hengine : forall ix meta m,
     load_index st' = Returned (ix, meta) ->
     SentenceTransformer EMB_MODEL_NAME = Returned m ->
     0 < match k with Some k' => k' | None => 3 end ->
     exists dists ids,
       search ix (normalize_L2 (encode m (c :: q)))
              (match k with Some k' => k' | None => 3 end)
       = Returned (dists, ids) /\
       Forall (fun idx => idx < Z.of_nat (ntotal ix)) ids) :
  exists m ix meta dists ids rs,
    SentenceTransformer EMB_MODEL_NAME = Returned m /\
    load_index st' = Returned (ix, meta) /\
    search ix (normalize_L2 (encode m (c :: q)))
           (match k with Some k' => k' | None => 3 end)
    = Returned (dists, ids) /\
    route_query (Some {| b_query := Some (c :: q); b_k := k |}) t2 t3 st'
    = (QueryOk (c :: q) (safe_detect_lang (c :: q)) rs (round_elapsed t2 t3),
       200) /\
    length rs = length (filter kept (combine dists ids)).
Proof.
  unfold route_rebuild in Hrebuild.
  destruct (build_index fuel EMB_MODEL_NAME st) as [[[info|e] st0]|] eqn:Hrun;
    [|discriminate|discriminate].
  injection Hrebuild as _ <-.
  destruct (build_index_returned _ _ _ _ _ Hrun)
    as (m & listing & Hm & Hd & Hne & Hst & Hvec & _).
  set (ents := corpus_entries (load_text_files DOCS_DIR listing)) in *.
  set (ix := {| d := dim info; xb := map (entry_vector m) ents |}) in *.
  assert (Hload : load_index st0 = Returned (ix, map entry_meta ents)).
  { rewrite Hst. unfold load_index. cbn [index_file meta_file].
    rewrite Hidx. cbn [bind]. now rewrite Hmeta. }
  set (k' := match k with Some k' => k' | None => 3 end) in *.
  destruct (Hengine ix _ m Hload Hm Hk) as (dists & ids & Hs & Hlab).
  unfold ntotal, ix in Hlab. cbn [xb] in Hlab.
  rewrite length_map in Hlab.
  destruct (query_index_run (c :: q) k' EMB_MODEL_NAME st0 m ix
              (map entry_meta ents) dists ids Hm Hload Hs)
    as (rs & Hq & Hrs).
  { now rewrite length_map. }
  exists m, ix, (map entry_meta ents), dists, ids, rs.
  split; [exact Hm|]. split; [exact Hload|]. split; [exact Hs|]. split.
  - unfold route_query. cbn [b_query b_k]. fold k'. now rewrite Hq.
  - symmetry. exact (Forall2_length Hrs).
Qed.

Lemma print_results_nth (rs : list (result float32)) :
  forall start i r,
    nth_error rs i = Some r ->
    nth_error (print_results start rs) (2 * i)
    = nth_error (print_result (start + i) r) 0 /\
    nth_error (print_results start rs) (2 * i + 1)
    = nth_error (print_result (start + i) r) 1.
Proof.
  induction rs as [|r0 rs IH]; intros start i r Hnth.
  - now destruct i.
  - destruct i as [|i].
    + injection Hnth as <-. rewrite Nat.add_0_r. split; reflexivity.
    + cbn [nth_error] in Hnth. destruct (IH (S start) i r Hnth) as [H0 H1].
      replace (start + S i)%nat with (S start + i)%nat by lia.
      replace (2 * S i)%nat with (S (S (2 * i))) by lia.
      replace (S (S (2 * i)) + 1)%nat with (S (S (2 * i + 1))) by lia.
      split; [exact H0 | exact H1].
Qed.

Lemma length_print_results (rs : list (result float32)) :
  forall start, length (print_results start rs) = (2 * length rs)%nat.
Proof.
  induction rs as [|r rs IH]; intros start; simpl; [reflexivity|].
  rewrite IH. lia.
Qed.

(** X19.  With [--rebuild] the command line does nothing but the build,
    whatever the other arguments.  A build that returns is followed by
    one call of [print], both artifacts written.  An error the build
    raises before it writes anything (the model that does not load, the
    missing documents directory, the corpus without chunk, the embeddings
    of unequal length) escapes uncaught: nothing is printed and the store
    is as it was. *)
Theorem cli_main_rebuild (fuel : nat) (args : cli_args) (t0 t1 : clock)
  (st : store)
  (Hreb : arg_rebuild args = true) :
  (forall info st',
     build_index fuel EMB_MODEL_NAME st = Some (Returned info, st') ->
     cli_main fuel args t0 t1 st
     = Some (Done [Print (of_string "Rebuilt index: "
                          ++ str_of_nat (vectors info)
                          ++ of_string " vectors (dim="
                          ++ str_of_nat (dim info) ++ of_string ") in "
                          ++ format_elapsed t0 t1 ++ of_string "s")], st') /\
     index_file st' <> None /\ meta_file st' <> None) /\
  (forall e, SentenceTransformer EMB_MODEL_NAME = Raised e ->
     cli_main fuel args t0 t1 st = Some (Uncaught e, st)) /\
  (forall m, SentenceTransformer EMB_MODEL_NAME = Returned m ->
     docs_dir st = None ->
     cli_main fuel args t0 t1 st = Some (Uncaught docs_not_found, st)) /\
  (forall m listing,
     SentenceTransformer EMB_MODEL_NAME = Returned m ->
     docs_dir st = Some listing ->
     (build_fuel st <= fuel)%nat ->
     corpus_entries (load_text_files DOCS_DIR listing) = [] ->
     cli_main fuel args t0 t1 st = Some (Uncaught no_chunks, st)) /\
  (forall m listing e,
     SentenceTransformer EMB_MODEL_NAME = Returned m ->
     docs_dir st = Some listing ->
     (build_fuel st <= fuel)%nat ->
     corpus_entries (load_text_files DOCS_DIR listing) <> [] ->
     vstack (map (fun en => encode m (e_chunk en))
                 (corpus_entries (load_text_files DOCS_DIR listing)))
     = Raised e ->
     cli_main fuel args t0 t1 st = Some (Uncaught e, st)).
Proof.
  destruct (build_index_error_cases fuel EMB_MODEL_NAME st)
    as (Hmodel & Hdocs & Hnone & Hstack).
  unfold cli_main. rewrite Hreb. split; [|split; [|split; [|split]]].
  - intros info st' Hrun. rewrite Hrun. split; [reflexivity|].
    destruct (build_index_returned _ _ _ _ _ Hrun)
      as (m & listing & _ & _ & _ & -> & _).
    split; discriminate.
  - intros e He. now rewrite (Hmodel e He).
  - intros m Hm Hd. now rewrite (Hdocs m Hm Hd).
  - intros m listing Hm Hd Hfuel Hn. now rewrite (Hnone m listing Hm Hd Hfuel Hn).
  - intros m listing e Hm Hd Hfuel Hs Hv.
    now rewrite (Hstack m listing e Hm Hd Hfuel Hs Hv).
Qed.

(** X20.  With [--query] and a query that is not empty (and without
    [--rebuild]), a query that returns with [n] results is followed by
    [4 + 2n] calls of [print], the store untouched: the detected language,
    the query (the text printed ends with a newline of its own), two
    calls per result in rank order, the report heading (the text printed
    starts with a newline of its own) and the elapsed time.  The result of
    rank [i] (counted from 0) is printed by the calls [2 + 2*i] and
    [3 + 2*i]: its number [i + 1], source, chunk index and score, then its
    text cut to its first 400 characters between quotes.  An empty query
    string counts as no [--query]. *)
Theorem cli_main_query (fuel : nat) (args : cli_args) (t0 t1 : clock)
  (st : store)
  (Hreb : arg_rebuild args = false) :
  (forall c q res,
     arg_query args = Some (c :: q) ->
     query_index (c :: q) (arg_k args) EMB_MODEL_NAME st = Returned res ->
     exists out,
       cli_main fuel args t0 t1 st = Some (Done out, st) /\
       length out = (4 + 2 * length (results res))%nat /\
       nth_error out 0
       = Some (Print (of_string "Detected language: " ++ lang res)) /\
       nth_error out 1
       = Some (Print (of_string "Query: " ++ query res ++ nl)) /\
       (forall i r, nth_error (results res) i = Some r ->
          nth_error out (2 + 2 * i)
          = Some (Print (str_of_nat (S i) ++ of_string ". Source: "
                         ++ rsource r ++ of_string " (chunk "
                         ++ str_of_nat (rchunk_idx r) ++ of_string ") "
                         ++ [8212%N] ++ of_string " score "
                         ++ format_score (score r))) /\
          nth_error out (3 + 2 * i)
          = Some (Print (of_string "   " ++ dquote ++ firstn 400 (rtext r)
                         ++ dquote))) /\
       nth_error out (2 + 2 * length (results res))
       = Some (Print (nl ++ of_string "--- Report ---")) /\
       nth_error out (3 + 2 * length (results res))
       = Some (Print (of_string "Elapsed time: " ++ format_elapsed t0 t1
                      ++ of_string "s"))) /\
  (arg_query args = Some [] \/ arg_query args = None ->
   cli_main fuel args t0 t1 st
   = if arg_serve args
     then if Flask_available
          then Some (Done [AppRun (arg_host args) (arg_port args)], st)
          else Some (FlaskMissing, st)
     else Some (Done [PrintHelp], st)).
Proof.
  unfold cli_main. rewrite Hreb. split.
  - intros c q res Hq Hres. rewrite Hq, Hres.
    eexists. split; [reflexivity|].
    change ([?a; ?b] ++ ?l) with (a :: b :: l).
    split; [|split; [reflexivity|split; [reflexivity|split; [|split]]]].
    + cbn [length]. rewrite length_app, length_print_results. simpl. lia.
    + intros i r Hr.
      destruct (print_results_nth (results res) 1 i r Hr) as [H0 H1].
      assert (Hi : (i < length (results res))%nat)
        by (apply nth_error_Some; congruence).
      replace (3 + 2 * i)%nat with (S (S (2 * i + 1))) by lia.
      change (2 + 2 * i)%nat with (S (S (2 * i))).
      change (nth_error (?a :: ?b :: ?l) (S (S ?n))) with (nth_error l n).
      rewrite !nth_error_app1 by (rewrite length_print_results; lia).
      rewrite H0, H1. unfold print_result. cbn [nth_error].
      now rewrite (slice_prefix _ 400) by lia.
    + change (2 + 2 * length (results res))%nat
        with (S (S (2 * length (results res)))).
      change (nth_error (?a :: ?b :: ?l) (S (S ?n))) with (nth_error l n).
      rewrite nth_error_app2 by (rewrite length_print_results; lia).
      rewrite length_print_results, Nat.sub_diag. reflexivity.
    + change (3 + 2 * length (results res))%nat
        with (S (S (S (2 * length (results res))))).
      change (nth_error (?a :: ?b :: ?l) (S (S ?n))) with (nth_error l n).
      rewrite nth_error_app2 by (rewrite length_print_results; lia).
      rewrite length_print_results.
      replace (S (2 * length (results res)) - 2 * length (results res))%nat
        with 1%nat by lia.
      reflexivity.
  - intros [-> | ->]; reflexivity.
Qed.

End EntryPointFacts.

Lemma route_rebuild_answers_witness :
  route_rebuild (H := toy_host) 4 (toy_time 0) (toy_time 5) Toy.fresh
  = Some ((RebuildOk 2 2 (toy_time 5), 200), Toy.built) /\
  route_rebuild (H := toy_host) 4 (toy_time 0) (toy_time 5) Toy.no_docs
  = Some ((Failed (of_string "Docs folder not found: /srv/rag/docs"), 500),
          Toy.no_docs) /\
  route_rebuild (H := toy_host) 4 (toy_time 0) (toy_time 5) Toy.blank_docs
  = Some ((Failed (of_string
             "No text chunks found in docs. Add .txt or .md files to ./docs"),
           500), Toy.blank_docs).
Proof.
  destruct (route_rebuild_answers (H := toy_host) 4 (toy_time 0) (toy_time 5)
              Toy.fresh) as (Hok & _).
  destruct (route_rebuild_answers (H := toy_host) 4 (toy_time 0) (toy_time 5)
              Toy.no_docs) as (_ & _ & Hdocs & _).
  destruct (route_rebuild_answers (H := toy_host) 4 (toy_time 0) (toy_time 5)
              Toy.blank_docs) as (_ & _ & _ & Hnone & _).
  split; [|split].
  - exact (proj1 (Hok _ _ toy_build)).
  - exact (Hdocs tt eq_refl eq_refl).
  - exact (Hnone tt _ eq_refl eq_refl ltac:(vm_compute; lia) eq_refl).
Defined.

Lemma route_query_before_build_witness :
  route_query (H := toy_host) (Some {| b_query := Some []; b_k := Some 5 |})
    (toy_time 0) (toy_time 1) Toy.fresh
  = (Failed (of_string "query required"), 400) /\
  route_query (H := toy_host)
    (Some {| b_query := Some (of_string "hello"); b_k := None |})
    (toy_time 0) (toy_time 1) Toy.fresh
  = (Failed (of_string "Index or meta not found. Run rebuild first."), 500).
Proof.
  destruct (route_query_before_build (H := toy_host)
              (toy_time 0) (toy_time 1) Toy.fresh)
    as [H400 H500].
  split.
  - apply (H400 (Some {| b_query := Some []; b_k := Some 5 |})).
    right. reflexivity.
  - apply (H500 104%N (of_string "ello") None tt eq_refl). left. reflexivity.
Defined.

Lemma toy_route_rebuild :
  route_rebuild (H := toy_host) 4 (toy_time 0) (toy_time 5) Toy.fresh
  = Some ((RebuildOk 2 2 (toy_time 5), 200), Toy.built).
Proof. vm_compute. reflexivity. Qed.

Lemma route_rebuild_then_query_witness :
  exists rs,
    route_query (H := toy_host)
      (Some {| b_query := Some (of_string "hello"); b_k := None |})
      (toy_time 6) (toy_time 8) Toy.built
    = (QueryOk (of_string "hello") (of_string "unknown") rs (toy_time 2), 200) /\
    length rs = 2%nat.
Proof.
  destruct (route_rebuild_then_query (H := toy_host) 4
              (toy_time 0) (toy_time 5) (toy_time 6) (toy_time 8) Toy.fresh
              Toy.built _ 104%N (of_string "ello") None ltac:(lia)
              (fun ix => eq_refl) (fun meta => eq_refl) toy_route_rebuild)
    as (m & ix & meta & dists & ids & rs & _ & Hload & Hs & Hq & Hlen).
  - intros ix meta m Hload _ _. vm_compute in Hload.
    injection Hload as <- <-. eexists. eexists.
    split; [vm_compute; reflexivity|].
    vm_compute. repeat constructor; discriminate.
  - exists rs. split; [exact Hq|].
    vm_compute in Hload. injection Hload as <- <-. destruct m.
    vm_compute in Hs. injection Hs as <- <-. exact Hlen.
Defined.

(** A query through the route with [k = 0]: the engine refuses, the
    route answers with status 500. *)
Example route_query_k_zero :
  snd (route_query (H := toy_host)
         (Some {| b_query := Some (of_string "hello"); b_k := Some 0 |})
         (toy_time 6) (toy_time 8) Toy.built)
  = 500.
Proof. vm_compute. reflexivity. Qed.

Lemma cli_main_rebuild_witness :
  cli_main (H := toy_host) 4
    {| arg_serve := true; arg_host := of_string "127.0.0.1"; arg_port := 5000;
       arg_rebuild := true; arg_query := Some (of_string "hello");
       arg_k := 3 |}
    (toy_time 0) (toy_time 5) Toy.fresh
  = Some (Done [Print (of_string "Rebuilt index: 2 vectors (dim=2) in 0.00s")],
          Toy.built) /\
  cli_main (H := toy_host) 4
    {| arg_serve := true; arg_host := of_string "127.0.0.1"; arg_port := 5000;
       arg_rebuild := true; arg_query := Some (of_string "hello");
       arg_k := 3 |}
    (toy_time 0) (toy_time 5) Toy.no_docs
  = Some (Uncaught (docs_not_found (C := Toy.caps)), Toy.no_docs).
Proof.
  split.
  - exact (proj1 (proj1 (cli_main_rebuild (H := toy_host) 4
                           {| arg_serve := true;
                              arg_host := of_string "127.0.0.1";
                              arg_port := 5000; arg_rebuild := true;
                              arg_query := Some (of_string "hello");
                              arg_k := 3 |}
                           (toy_time 0) (toy_time 5) Toy.fresh eq_refl)
                    _ _ toy_build)).
  - exact (proj1 (proj2 (proj2 (cli_main_rebuild (H := toy_host) 4
                           {| arg_serve := true;
                              arg_host := of_string "127.0.0.1";
                              arg_port := 5000; arg_rebuild := true;
                              arg_query := Some (of_string "hello");
                              arg_k := 3 |}
                           (toy_time 0) (toy_time 5) Toy.no_docs eq_refl)))
             tt eq_refl eq_refl).
Defined.

Lemma cli_main_query_witness :
  cli_main (H := toy_host) 0
    {| arg_serve := false; arg_host := of_string "127.0.0.1"; arg_port := 5000;
       arg_rebuild := false; arg_query := Some []; arg_k := 3 |}
    (toy_time 0) (toy_time 5) Toy.built
  = Some (Done [PrintHelp], Toy.built) /\
  exists out,
    cli_main (H := toy_host) 0
      {| arg_serve := true; arg_host := of_string "127.0.0.1"; arg_port := 5000;
         arg_rebuild := false; arg_query := Some (of_string "hello");
         arg_k := 3 |}
      (toy_time 0) (toy_time 5) Toy.built
    = Some (Done out, Toy.built) /\
    length out = 8%nat.
Proof.
  split.
  - apply (proj2 (cli_main_query (H := toy_host) 0
                    {| arg_serve := false; arg_host := of_string "127.0.0.1";
                       arg_port := 5000; arg_rebuild := false;
                       arg_query := Some []; arg_k := 3 |}
                    (toy_time 0) (toy_time 5) Toy.built eq_refl)).
    left. reflexivity.
  - destruct (proj1 (cli_main_query (H := toy_host) 0
                       {| arg_serve := true; arg_host := of_string "127.0.0.1";
                          arg_port := 5000; arg_rebuild := false;
                          arg_query := Some (of_string "hello"); arg_k := 3 |}
                       (toy_time 0) (toy_time 5) Toy.built eq_refl)
                104%N (of_string "ello") _ eq_refl
                ltac:(vm_compute; reflexivity))
      as (out & Hcli & Hlen & _).
    exists out. split; [exact Hcli | exact Hlen].
Defined.
